(** * Shenandoah assertions: a shallow embedding of shenandoahAsserts.cpp

    The assertion layer of the Shenandoah collector reads the state of the
    heap (membership, regions, forwarding words, mark bitmaps, collection
    set, connection matrix, reference processor) and, on a violated
    invariant, renders a report and hands it to the fatal-error path.

    The embedding keeps the shape of the C++ file:
    - pointers and [size_t] values are integers ([Z]), [NULL] is [0] and
      [size_t] arithmetic wraps modulo [2^64];
    - the memory the assertions read is a record of total functions, one
      per query of the heap, of an object, of a region or of a VM flag;
    - every function runs in a small monad that logs the queries in the
      order in which they are made and either returns or dies with the
      report handed to [report_vm_error], which does not return; VM flags
      and static constants are read without a log entry;
    - a [ShenandoahMessageBuffer] is the list of its [append] calls, each
      kept as its format string and its arguments. *)

From Stdlib Require Import ZArith List String Bool Lia.
Import ListNotations.
Local Open Scope Z_scope.

(** ** Values *)

Definition ptr := Z.
Definition NULL : ptr := 0.

(** [oopDesc::unsafe_equals]: comparison of the two addresses. *)
Definition unsafe_equals (a b : ptr) : bool := a =? b.

Definition size_t_modulus : Z := 2 ^ 64.
Definition size_t_wrap (x : Z) : Z := x mod size_t_modulus.

(** Modelled from the spec: the enumeration [SafeLevel] is declared in
    shenandoahAsserts.hpp; the spec gives its four values in increasing
    order (Unknown, ObjectSafe, ObjectAndForwardeeSafe, AllSafe). *)
Inductive SafeLevel : Type :=
| _safe_unknown
| _safe_oop
| _safe_oop_fwd
| _safe_all.

Definition level_rank (l : SafeLevel) : Z :=
  match l with
  | _safe_unknown => 0
  | _safe_oop => 1
  | _safe_oop_fwd => 2
  | _safe_all => 3
  end.

(** [a >= b] and [a == b] on levels. *)
Definition level_ge (a b : SafeLevel) : bool := level_rank b <=? level_rank a.
Definition level_eq (a b : SafeLevel) : bool := level_rank a =? level_rank b.

(** ** The state the assertions read *)

Record VM : Type := {
  (* ShenandoahHeap *)
  h_is_in : ptr -> bool;
  h_heap_region_containing : ptr -> ptr;
  h_heap_region_index_containing : ptr -> Z;
  h_regions_get : Z -> ptr;
  h_allocated_after_complete_mark_start : ptr -> bool;
  h_allocated_after_next_mark_start : ptr -> bool;
  h_is_marked_complete : ptr -> bool;
  h_is_marked_next : ptr -> bool;
  h_in_collection_set : ptr -> bool;
  h_is_full_gc_move_in_progress : bool;
  h_addr_is_alive : ptr;
  h_addr_forwarded_is_alive : ptr;
  h_is_alive_closure : ptr;
  (* ShenandoahConnectionMatrix *)
  m_is_connected : Z -> Z -> bool;
  (* ReferenceProcessor *)
  rp_is_alive_non_header : ptr;
  (* oopDesc, Klass, BrooksPointer *)
  o_klass : ptr -> ptr;
  k_external_name : ptr -> string;
  o_size : ptr -> Z;
  bp_get_raw_unchecked : ptr -> ptr;
  bp_word_size : Z;
  (* ShenandoahHeapRegion *)
  r_print_on : ptr -> string;
  r_is_active : ptr -> bool;
  r_is_humongous_start : ptr -> bool;
  r_is_humongous_continuation : ptr -> bool;
  r_region_number : ptr -> Z;
  r_humongous_threshold_words : Z;
  r_required_regions : Z -> Z;
  (* globals *)
  g_UseShenandoahMatrix : bool;
  g_HeapWordSize : Z;
  os_print_location : ptr -> string
}.

(** The queries, as they appear in the log. *)
Inductive read : Type :=
| R_is_in (p : ptr)
| R_heap_region_containing (p : ptr)
| R_heap_region_index_containing (p : ptr)
| R_regions_get (i : Z)
| R_allocated_after_complete_mark_start (p : ptr)
| R_allocated_after_next_mark_start (p : ptr)
| R_is_marked_complete (p : ptr)
| R_is_marked_next (p : ptr)
| R_in_collection_set (p : ptr)
| R_is_full_gc_move_in_progress
| R_is_alive_closure
| R_is_connected (i j : Z)
| R_is_alive_non_header
| R_klass (p : ptr)
| R_external_name (k : ptr)
| R_size (p : ptr)
| R_get_raw_unchecked (p : ptr)
| R_print_on (r : ptr)
| R_is_active (r : ptr)
| R_is_humongous_start (r : ptr)
| R_is_humongous_continuation (r : ptr)
| R_region_number (r : ptr)
| R_print_location (p : ptr).

(** ** Message buffers *)

Inductive arg : Type :=
| A_str (s : string)
| A_ptr (p : ptr).

Record appended : Type := Append { fmt : string; args : list arg }.

Definition ShenandoahMessageBuffer := list appended.

Definition nl : string := String (Ascii.ascii_of_nat 10) EmptyString.

(** The macro [PTR_FORMAT] of globalDefinitions.hpp is kept by name. *)
Definition PTR_FORMAT : string := "PTR_FORMAT".

Definition append (msg : ShenandoahMessageBuffer) (f : string) (a : list arg)
  : ShenandoahMessageBuffer :=
  msg ++ [Append f a].

(** [b ? "" : "not"] *)
Definition not_unless (b : bool) : arg := A_str (if b then "" else "not").

(** ** Outcomes and the monad *)

Record vm_error : Type := {
  err_file : string;
  err_line : Z;
  err_message : ShenandoahMessageBuffer
}.

(** What [print_failure] was called with, next to what it hands to
    [report_vm_error]. *)
Record failure : Type := {
  f_level : SafeLevel;
  f_obj : ptr;
  f_interior_loc : ptr;
  f_loc : ptr;
  f_phase : string;
  f_label : string;
  f_error : vm_error
}.

Inductive outcome (E A : Type) : Type :=
| Ret (a : A)
| Died (e : E).
Arguments Ret {E A} a.
Arguments Died {E A} e.

Definition M (E A : Type) : Type := (list read * outcome E A)%type.

Definition ret {E A} (a : A) : M E A := ([], Ret a).

Definition bind {E A B} (m : M E A) (k : A -> M E B) : M E B :=
  match m with
  | (t, Ret a) => let (t', r) := k a in (t ++ t', r)
  | (t, Died e) => (t, Died e)
  end.

Definition query {E A} (r : read) (v : A) : M E A := ([r], Ret v).

Definition die {E A} (e : E) : M E A := ([], Died e).

Definition reads {E A} (m : M E A) : list read := fst m.
Definition result {E A} (m : M E A) : outcome E A := snd m.

Declare Scope asserts_scope.
Delimit Scope asserts_scope with asserts.
Notation "x <- m ;; k" := (bind m (fun x => k))
  (at level 61, m at next level, right associativity) : asserts_scope.
Notation "m ;;; k" := (bind m (fun _ => k))
  (at level 61, right associativity) : asserts_scope.
Local Open Scope asserts_scope.

(** [returns m] and [dies m]: the two ways a call ends. *)
Definition returns {E A} (m : M E A) : bool :=
  match result m with Ret _ => true | Died _ => false end.
Definition dies {E A} (m : M E A) : bool := negb (returns m).

(** ** Logged accessors *)

Section Accessors.
Context {E : Type} (vm : VM).

Definition is_in (p : ptr) : M E bool := query (R_is_in p) (h_is_in vm p).
Definition heap_region_containing (p : ptr) : M E ptr :=
  query (R_heap_region_containing p) (h_heap_region_containing vm p).
Definition heap_region_index_containing (p : ptr) : M E Z :=
  query (R_heap_region_index_containing p) (h_heap_region_index_containing vm p).
Definition regions_get (i : Z) : M E ptr :=
  query (R_regions_get i) (h_regions_get vm i).
Definition allocated_after_complete_mark_start (p : ptr) : M E bool :=
  query (R_allocated_after_complete_mark_start p)
        (h_allocated_after_complete_mark_start vm p).
Definition allocated_after_next_mark_start (p : ptr) : M E bool :=
  query (R_allocated_after_next_mark_start p)
        (h_allocated_after_next_mark_start vm p).
Definition is_marked_complete (p : ptr) : M E bool :=
  query (R_is_marked_complete p) (h_is_marked_complete vm p).
Definition is_marked_next (p : ptr) : M E bool :=
  query (R_is_marked_next p) (h_is_marked_next vm p).
Definition in_collection_set (p : ptr) : M E bool :=
  query (R_in_collection_set p) (h_in_collection_set vm p).
Definition is_full_gc_move_in_progress : M E bool :=
  query R_is_full_gc_move_in_progress (h_is_full_gc_move_in_progress vm).
Definition is_alive_closure : M E ptr :=
  query R_is_alive_closure (h_is_alive_closure vm).
Definition is_connected (i j : Z) : M E bool :=
  query (R_is_connected i j) (m_is_connected vm i j).
Definition is_alive_non_header : M E ptr :=
  query R_is_alive_non_header (rp_is_alive_non_header vm).
Definition klass (p : ptr) : M E ptr := query (R_klass p) (o_klass vm p).
Definition external_name (k : ptr) : M E string :=
  query (R_external_name k) (k_external_name vm k).
Definition size (p : ptr) : M E Z := query (R_size p) (o_size vm p).
Definition get_raw_unchecked (p : ptr) : M E ptr :=
  query (R_get_raw_unchecked p) (bp_get_raw_unchecked vm p).
Definition print_on (r : ptr) : M E string :=
  query (R_print_on r) (r_print_on vm r).
Definition is_active (r : ptr) : M E bool :=
  query (R_is_active r) (r_is_active vm r).
Definition is_humongous_start (r : ptr) : M E bool :=
  query (R_is_humongous_start r) (r_is_humongous_start vm r).
Definition is_humongous_continuation (r : ptr) : M E bool :=
  query (R_is_humongous_continuation r) (r_is_humongous_continuation vm r).
Definition region_number (r : ptr) : M E Z :=
  query (R_region_number r) (r_region_number vm r).
Definition print_location (p : ptr) : M E string :=
  query (R_print_location p) (os_print_location vm p).
End Accessors.

(** ** The printers *)

Section Printers.
Context {E : Type} (vm : VM).

Definition print_obj (msg : ShenandoahMessageBuffer) (obj : ptr)
  : M E ShenandoahMessageBuffer :=
  r <- heap_region_containing vm obj ;;
  ss <- print_on vm r ;;
  k <- klass vm obj ;;
  k' <- klass vm obj ;;
  name <- external_name vm k' ;;
  let msg := append msg ("  " ++ PTR_FORMAT ++ " - klass " ++ PTR_FORMAT ++ " %s" ++ nl)
                    [A_ptr obj; A_ptr k; A_str name] in
  b <- allocated_after_complete_mark_start vm obj ;;
  let msg := append msg ("    %3s allocated after complete mark start" ++ nl) [not_unless b] in
  b <- allocated_after_next_mark_start vm obj ;;
  let msg := append msg ("    %3s allocated after next mark start" ++ nl) [not_unless b] in
  b <- is_marked_complete vm obj ;;
  let msg := append msg ("    %3s marked complete" ++ nl) [not_unless b] in
  b <- is_marked_next vm obj ;;
  let msg := append msg ("    %3s marked next" ++ nl) [not_unless b] in
  b <- in_collection_set vm obj ;;
  let msg := append msg ("    %3s in collection set" ++ nl) [not_unless b] in
  ret (append msg "  region: %s" [A_str ss]).

Definition print_non_obj (msg : ShenandoahMessageBuffer) (loc : ptr)
  : M E ShenandoahMessageBuffer :=
  inh <- is_in vm loc ;;
  if inh then
    let msg := append msg ("  inside Java heap" ++ nl) [] in
    r <- heap_region_containing vm loc ;;
    ss <- print_on vm r ;;
    b <- in_collection_set vm loc ;;
    let msg := append msg ("    %3s in collection set" ++ nl) [not_unless b] in
    ret (append msg "  region: %s" [A_str ss])
  else
    let msg := append msg ("  outside of Java heap" ++ nl) [] in
    ss <- print_location vm loc ;;
    ret (append msg "  %s" [A_str ss]).

Definition print_obj_safe (msg : ShenandoahMessageBuffer) (loc : ptr)
  : M E ShenandoahMessageBuffer :=
  let msg := append msg ("  " ++ PTR_FORMAT ++ " - safe print, no details" ++ nl)
                    [A_ptr loc] in
  inh <- is_in vm loc ;;
  if inh then
    r <- heap_region_containing vm loc ;;
    if negb (r =? NULL) then
      ss <- print_on vm r ;;
      ret (append msg "  region: %s" [A_str ss])
    else ret msg
  else ret msg.
End Printers.

(** ** print_failure *)

Section Failure.
Context (vm : VM).

(** [report_vm_error(file, line, msg.buffer())] at the end of
    [print_failure]. *)
Definition report_vm_error {A} (level : SafeLevel) (obj interior_loc loc : ptr)
           (phase label file : string) (line : Z)
           (msg : ShenandoahMessageBuffer) : M failure A :=
  die {| f_level := level; f_obj := obj; f_interior_loc := interior_loc;
         f_loc := loc; f_phase := phase; f_label := label;
         f_error := {| err_file := file; err_line := line; err_message := msg |} |}.

(** The blocks of [print_failure], one per section of the report. *)

Definition pf_referenced_from {E} (msg : ShenandoahMessageBuffer)
           (interior_loc loc : ptr) (loc_in_heap : bool)
  : M E ShenandoahMessageBuffer :=
  let msg := append msg ("Referenced from:" ++ nl) [] in
  msg <- (if negb (interior_loc =? NULL) then
            let msg := append msg ("  interior location: " ++ PTR_FORMAT ++ nl)
                              [A_ptr interior_loc] in
            if loc_in_heap then print_obj vm msg loc
            else print_non_obj vm msg interior_loc
          else
            ret (append msg
                   ("  no interior location recorded (probably a plain heap scan, or detached oop)" ++ nl)
                   [])) ;;
  ret (append msg nl []).

Definition pf_object {E} (msg : ShenandoahMessageBuffer)
           (level : SafeLevel) (obj : ptr) : M E ShenandoahMessageBuffer :=
  let msg := append msg ("Object:" ++ nl) [] in
  msg <- (if level_ge level _safe_oop then print_obj vm msg obj
          else print_obj_safe vm msg obj) ;;
  ret (append msg nl []).

Definition pf_forwardee {E} (msg : ShenandoahMessageBuffer)
           (level : SafeLevel) (obj : ptr) : M E ShenandoahMessageBuffer :=
  if level_ge level _safe_oop then
    fwd <- get_raw_unchecked vm obj ;;
    let msg := append msg ("Forwardee:" ++ nl) [] in
    msg <- (if negb (unsafe_equals obj fwd) then
              if level_ge level _safe_oop_fwd then print_obj vm msg fwd
              else print_obj_safe vm msg fwd
            else ret (append msg "  (the object itself)" [])) ;;
    ret (append msg nl [])
  else ret msg.

Definition pf_second_forwardee {E} (msg : ShenandoahMessageBuffer)
           (level : SafeLevel) (obj : ptr) : M E ShenandoahMessageBuffer :=
  if level_ge level _safe_oop_fwd then
    fwd <- get_raw_unchecked vm obj ;;
    fwd2 <- get_raw_unchecked vm fwd ;;
    if negb (unsafe_equals fwd fwd2) then
      let msg := append msg ("Second forwardee:" ++ nl) [] in
      msg <- print_obj_safe vm msg fwd2 ;;
      ret (append msg nl [])
    else ret msg
  else ret msg.

Definition connected_fmt : string := "  %35s %3s connected" ++ nl.

Definition pf_matrix_connections {E} (msg : ShenandoahMessageBuffer)
           (level : SafeLevel) (obj interior_loc loc : ptr)
           (loc_in_heap interior_loc_in_heap : bool)
  : M E ShenandoahMessageBuffer :=
  if loc_in_heap && g_UseShenandoahMatrix vm && level_eq level _safe_all then
    let msg := append msg ("Matrix connections:" ++ nl) [] in
    fwd_to <- get_raw_unchecked vm obj ;;
    fwd_from <- get_raw_unchecked vm loc ;;
    from_idx <- heap_region_index_containing vm loc ;;
    to_idx <- heap_region_index_containing vm obj ;;
    fwd_from_idx <- heap_region_index_containing vm fwd_from ;;
    fwd_to_idx <- heap_region_index_containing vm fwd_to ;;
    c <- is_connected vm from_idx to_idx ;;
    let msg := append msg connected_fmt [A_str "reference and object"; not_unless c] in
    c <- is_connected vm fwd_from_idx to_idx ;;
    let msg := append msg connected_fmt [A_str "fwd(reference) and object"; not_unless c] in
    c <- is_connected vm from_idx fwd_to_idx ;;
    let msg := append msg connected_fmt [A_str "reference and fwd(object)"; not_unless c] in
    c <- is_connected vm fwd_from_idx fwd_to_idx ;;
    let msg := append msg connected_fmt [A_str "fwd(reference) and fwd(object)"; not_unless c] in
    if interior_loc_in_heap then
      from_interior_idx <- heap_region_index_containing vm interior_loc ;;
      c <- is_connected vm from_interior_idx to_idx ;;
      let msg := append msg connected_fmt
                        [A_str "interior-reference and object"; not_unless c] in
      c <- is_connected vm from_interior_idx fwd_to_idx ;;
      ret (append msg connected_fmt
                  [A_str "interior-reference and fwd(object)"; not_unless c])
    else ret msg
  else ret msg.

(** [p != NULL && heap->is_in(p)] *)
Definition non_null_in_heap {E} (p : ptr) : M E bool :=
  if negb (p =? NULL) then is_in vm p else ret false.

Definition print_failure {A} (level : SafeLevel) (obj interior_loc loc : ptr)
           (phase label file : string) (line : Z) : M failure A :=
  loc_in_heap <- non_null_in_heap loc ;;
  interior_loc_in_heap <- non_null_in_heap interior_loc ;;
  let msg := [Append ("%s; %s" ++ nl ++ nl) [A_str phase; A_str label]] in
  msg <- pf_referenced_from msg interior_loc loc loc_in_heap ;;
  msg <- pf_object msg level obj ;;
  msg <- pf_forwardee msg level obj ;;
  msg <- pf_second_forwardee msg level obj ;;
  msg <- pf_matrix_connections msg level obj interior_loc loc
                               loc_in_heap interior_loc_in_heap ;;
  report_vm_error level obj interior_loc loc phase label file line msg.
End Failure.

(** ** The assertions *)

Section Asserts.
Context (vm : VM).

Definition assert_in_heap (interior_loc obj : ptr) (file : string) (line : Z)
  : M failure unit :=
  inh <- is_in vm obj ;;
  if negb inh then
    print_failure vm _safe_unknown obj interior_loc NULL
                  "Shenandoah assert_in_heap failed"
                  "oop must point to a heap address" file line
  else ret tt.

Definition assert_correct (interior_loc obj : ptr) (file : string) (line : Z)
  : M failure unit :=
  (* Step 1. Check that both obj and its fwdptr are in heap. *)
  inh <- is_in vm obj ;;
  (if negb inh then
     print_failure vm _safe_unknown obj interior_loc NULL
                   "Shenandoah assert_correct failed"
                   "oop must point to a heap address" file line
   else ret tt) ;;;
  fwd <- get_raw_unchecked vm obj ;;
  inh <- is_in vm fwd ;;
  (if negb inh then
     print_failure vm _safe_oop obj interior_loc NULL
                   "Shenandoah assert_correct failed"
                   "Forwardee must point to a heap address" file line
   else ret tt) ;;;
  let is_forwarded := negb (unsafe_equals obj fwd) in
  full <- (if is_forwarded then is_full_gc_move_in_progress vm else ret false) ;;
  (if is_forwarded && full then
     print_failure vm _safe_all obj interior_loc NULL
                   "Shenandoah assert_correct failed"
                   "Non-trivial forwarding pointer during Full GC moves, probable bug."
                   file line
   else ret tt) ;;;
  (* Step 2. Check that forwardee points to correct region. *)
  same <- (if is_forwarded then
             fi <- heap_region_index_containing vm fwd ;;
             oi <- heap_region_index_containing vm obj ;;
             ret (fi =? oi)
           else ret false) ;;
  (if is_forwarded && same then
     print_failure vm _safe_all obj interior_loc NULL
                   "Shenandoah assert_correct failed"
                   "Forwardee should be self, or another region" file line
   else ret tt) ;;;
  (* Step 3. Check for multiple forwardings *)
  if is_forwarded then
    fwd2 <- get_raw_unchecked vm fwd ;;
    if negb (unsafe_equals fwd fwd2) then
      print_failure vm _safe_all obj interior_loc NULL
                    "Shenandoah assert_correct failed"
                    "Multiple forwardings" file line
    else ret tt
  else ret tt.

(** The [for] loop of [assert_in_correct_region]; [fuel] bounds the
    number of iterations. *)
Fixpoint humongous_chain (fuel : nat) (interior_loc obj : ptr)
         (file : string) (line : Z) (idx num_regions i : Z) : M failure unit :=
  match fuel with
  | O => ret tt
  | S fuel' =>
    if i <? size_t_wrap (idx + num_regions) then
      chain_reg <- regions_get vm i ;;
      (if i =? idx then
         s <- is_humongous_start vm chain_reg ;;
         if negb s then
           print_failure vm _safe_unknown obj interior_loc NULL
                         "Shenandoah assert_in_correct_region failed"
                         "Object must reside in humongous start" file line
         else ret tt
       else ret tt) ;;;
      (if negb (i =? idx) then
         c <- is_humongous_continuation vm chain_reg ;;
         if negb c then
           print_failure vm _safe_oop obj interior_loc NULL
                         "Shenandoah assert_in_correct_region failed"
                         "Humongous continuation should be of proper size" file line
         else ret tt
       else ret tt) ;;;
      humongous_chain fuel' interior_loc obj file line idx num_regions
                      (size_t_wrap (i + 1))
    else ret tt
  end.

Definition assert_in_correct_region (interior_loc obj : ptr)
           (file : string) (line : Z) : M failure unit :=
  assert_correct interior_loc obj file line ;;;
  r <- heap_region_containing vm obj ;;
  act <- is_active vm r ;;
  (if negb act then
     print_failure vm _safe_unknown obj interior_loc NULL
                   "Shenandoah assert_in_correct_region failed"
                   "Object must reside in active region" file line
   else ret tt) ;;;
  sz <- size vm obj ;;
  let alloc_size := size_t_wrap (sz + bp_word_size vm) in
  if r_humongous_threshold_words vm <? alloc_size then
    idx <- region_number vm r ;;
    let num_regions :=
      r_required_regions vm (size_t_wrap (alloc_size * g_HeapWordSize vm)) in
    humongous_chain (Z.to_nat (size_t_wrap (idx + num_regions) - idx))
                    interior_loc obj file line idx num_regions idx
  else ret tt.

Definition assert_forwarded (interior_loc obj : ptr) (file : string) (line : Z)
  : M failure unit :=
  assert_correct interior_loc obj file line ;;;
  fwd <- get_raw_unchecked vm obj ;;
  if unsafe_equals obj fwd then
    print_failure vm _safe_all obj interior_loc NULL
                  "Shenandoah assert_forwarded failed"
                  "Object should be forwarded" file line
  else ret tt.

Definition assert_not_forwarded (interior_loc obj : ptr) (file : string) (line : Z)
  : M failure unit :=
  assert_correct interior_loc obj file line ;;;
  fwd <- get_raw_unchecked vm obj ;;
  if negb (unsafe_equals obj fwd) then
    print_failure vm _safe_all obj interior_loc NULL
                  "Shenandoah assert_not_forwarded failed"
                  "Object should not be forwarded" file line
  else ret tt.

Definition assert_marked_complete (interior_loc obj : ptr) (file : string) (line : Z)
  : M failure unit :=
  assert_correct interior_loc obj file line ;;;
  m <- is_marked_complete vm obj ;;
  if negb m then
    print_failure vm _safe_all obj interior_loc NULL
                  "Shenandoah assert_marked_complete failed"
                  "Object should be marked (complete)" file line
  else ret tt.

Definition assert_marked_next (interior_loc obj : ptr) (file : string) (line : Z)
  : M failure unit :=
  assert_correct interior_loc obj file line ;;;
  m <- is_marked_next vm obj ;;
  if negb m then
    print_failure vm _safe_all obj interior_loc NULL
                  "Shenandoah assert_marked_next failed"
                  "Object should be marked (next)" file line
  else ret tt.

Definition assert_not_in_cset (interior_loc obj : ptr) (file : string) (line : Z)
  : M failure unit :=
  assert_correct interior_loc obj file line ;;;
  c <- in_collection_set vm obj ;;
  if c then
    print_failure vm _safe_all obj interior_loc NULL
                  "Shenandoah assert_not_in_cset failed"
                  "Object should not be in collection set" file line
  else ret tt.

Definition assert_not_in_cset_loc (interior_loc : ptr) (file : string) (line : Z)
  : M failure unit :=
  c <- in_collection_set vm interior_loc ;;
  if c then
    print_failure vm _safe_unknown NULL interior_loc NULL
                  "Shenandoah assert_not_in_cset_loc failed"
                  "Interior location should not be in collection set" file line
  else ret tt.

Definition print_rp_failure {A} (label : string) (actual expected : ptr)
           (file : string) (line : Z) : M vm_error A :=
  let msg := [Append ("%s" ++ nl) [A_str label]] in
  let msg := append msg (" Actual:                  " ++ PTR_FORMAT ++ nl)
                    [A_ptr actual] in
  let msg := append msg (" Expected:                " ++ PTR_FORMAT ++ nl)
                    [A_ptr expected] in
  let msg := append msg (" SH->_is_alive:           " ++ PTR_FORMAT ++ nl)
                    [A_ptr (h_addr_is_alive vm)] in
  let msg := append msg (" SH->_forwarded_is_alive: " ++ PTR_FORMAT ++ nl)
                    [A_ptr (h_addr_forwarded_is_alive vm)] in
  die {| err_file := file; err_line := line; err_message := msg |}.

Definition assert_rp_isalive_not_installed (file : string) (line : Z)
  : M vm_error unit :=
  cl <- is_alive_non_header vm ;;
  if negb (cl =? NULL) then
    actual <- is_alive_non_header vm ;;
    print_rp_failure "Shenandoah assert_rp_isalive_not_installed failed"
                     actual NULL file line
  else ret tt.

Definition assert_rp_isalive_installed (file : string) (line : Z)
  : M vm_error unit :=
  cl <- is_alive_non_header vm ;;
  canon <- is_alive_closure vm ;;
  if negb (cl =? canon) then
    actual <- is_alive_non_header vm ;;
    expected <- is_alive_closure vm ;;
    print_rp_failure "Shenandoah assert_rp_isalive_installed failed"
                     actual expected file line
  else ret tt.
End Asserts.

(** ** Observations on a run *)

(** The level and the label of the report a call dies with. *)
Definition verdict {A} (m : M failure A) : option (SafeLevel * string) :=
  match result m with
  | Ret _ => None
  | Died f => Some (f_level f, f_label f)
  end.

(** The buffer handed to [report_vm_error]. *)
Definition message {A} (m : M failure A) : ShenandoahMessageBuffer :=
  match result m with
  | Ret _ => []
  | Died f => err_message (f_error f)
  end.

(** A line without arguments, such as a section header. *)
Definition literal (s : string) : appended := Append s [].

(** The reads of an object's type descriptor and of its mark state. *)
Definition reads_klass (obj : ptr) (t : list read) : Prop := In (R_klass obj) t.
Definition reads_mark_state (obj : ptr) (t : list read) : Prop :=
  In (R_is_marked_complete obj) t \/ In (R_is_marked_next obj) t.

(** The addresses printed in a buffer, in their order. *)
Definition pointers_of_args (a : list arg) : list ptr :=
  flat_map (fun x => match x with A_ptr p => [p] | A_str _ => [] end) a.
Definition pointers (msg : ShenandoahMessageBuffer) : list ptr :=
  flat_map (fun l => pointers_of_args (args l)) msg.

(** The report of [print_rp_failure]. *)
Definition rp_message (vm : VM) (label : string) (actual expected : ptr)
  : ShenandoahMessageBuffer :=
  [ Append ("%s" ++ nl) [A_str label];
    Append (" Actual:                  " ++ PTR_FORMAT ++ nl) [A_ptr actual];
    Append (" Expected:                " ++ PTR_FORMAT ++ nl) [A_ptr expected];
    Append (" SH->_is_alive:           " ++ PTR_FORMAT ++ nl)
           [A_ptr (h_addr_is_alive vm)];
    Append (" SH->_forwarded_is_alive: " ++ PTR_FORMAT ++ nl)
           [A_ptr (h_addr_forwarded_is_alive vm)] ].

(** The buffer a printer returns. *)
Definition printed {E} (m : M E ShenandoahMessageBuffer) : ShenandoahMessageBuffer :=
  match result m with
  | Ret msg => msg
  | Died _ => []
  end.

(** The sections of a report, each printed on an empty buffer.  The two
    flags [loc_in_heap] and [interior_loc_in_heap] are what [print_failure]
    computes before it prints. *)
Definition in_heap (vm : VM) (p : ptr) : bool := negb (p =? NULL) && h_is_in vm p.

Definition referenced_from_section (vm : VM) (interior_loc loc : ptr)
  : M failure ShenandoahMessageBuffer :=
  pf_referenced_from vm [] interior_loc loc (in_heap vm loc).

Definition object_section (vm : VM) (level : SafeLevel) (obj : ptr)
  : M failure ShenandoahMessageBuffer :=
  pf_object vm [] level obj.

Definition forwardee_section (vm : VM) (level : SafeLevel) (obj : ptr)
  : M failure ShenandoahMessageBuffer :=
  pf_forwardee vm [] level obj.

Definition second_forwardee_section (vm : VM) (level : SafeLevel) (obj : ptr)
  : M failure ShenandoahMessageBuffer :=
  pf_second_forwardee vm [] level obj.

Definition matrix_connections_section (vm : VM) (level : SafeLevel)
           (obj interior_loc loc : ptr) : M failure ShenandoahMessageBuffer :=
  pf_matrix_connections vm [] level obj interior_loc loc
                        (in_heap vm loc) (in_heap vm interior_loc).

Definition failure_header (phase label : string) : appended :=
  Append ("%s; %s" ++ nl ++ nl) [A_str phase; A_str label].

Definition failure_message (vm : VM) (level : SafeLevel) (obj interior_loc loc : ptr)
           (phase label : string) : ShenandoahMessageBuffer :=
  failure_header phase label
  :: printed (referenced_from_section vm interior_loc loc)
  ++ printed (object_section vm level obj)
  ++ printed (forwardee_section vm level obj)
  ++ printed (second_forwardee_section vm level obj)
  ++ printed (matrix_connections_section vm level obj interior_loc loc).

Definition failure_reads (vm : VM) (level : SafeLevel) (obj interior_loc loc : ptr)
  : list read :=
  reads (@non_null_in_heap vm failure loc)
  ++ reads (@non_null_in_heap vm failure interior_loc)
  ++ reads (referenced_from_section vm interior_loc loc)
  ++ reads (object_section vm level obj)
  ++ reads (forwardee_section vm level obj)
  ++ reads (second_forwardee_section vm level obj)
  ++ reads (matrix_connections_section vm level obj interior_loc loc).

(** The two ways an object is printed: with its details, which reads its
    type descriptor and its mark state, or by its address and, when the
    address is in the heap and has a region, the summary of the region. *)
Definition full_detail (vm : VM) (p : ptr) : ShenandoahMessageBuffer :=
  [ Append ("  " ++ PTR_FORMAT ++ " - klass " ++ PTR_FORMAT ++ " %s" ++ nl)
           [A_ptr p; A_ptr (o_klass vm p); A_str (k_external_name vm (o_klass vm p))];
    Append ("    %3s allocated after complete mark start" ++ nl)
           [not_unless (h_allocated_after_complete_mark_start vm p)];
    Append ("    %3s allocated after next mark start" ++ nl)
           [not_unless (h_allocated_after_next_mark_start vm p)];
    Append ("    %3s marked complete" ++ nl) [not_unless (h_is_marked_complete vm p)];
    Append ("    %3s marked next" ++ nl) [not_unless (h_is_marked_next vm p)];
    Append ("    %3s in collection set" ++ nl) [not_unless (h_in_collection_set vm p)];
    Append "  region: %s" [A_str (r_print_on vm (h_heap_region_containing vm p))] ].

Definition minimal_detail (vm : VM) (p : ptr) : ShenandoahMessageBuffer :=
  Append ("  " ++ PTR_FORMAT ++ " - safe print, no details" ++ nl) [A_ptr p]
  :: (if h_is_in vm p && negb (h_heap_region_containing vm p =? NULL)
      then [Append "  region: %s" [A_str (r_print_on vm (h_heap_region_containing vm p))]]
      else []).

(** A line of the "Matrix connections" section. *)
Definition connected_line (what : string) (c : bool) : appended :=
  Append connected_fmt [A_str what; not_unless c].

(** The four pairs {referring location, its forwardee} x {object, its
    forwardee}, and the two pairs of the interior location. *)
Definition matrix_four_pairs (vm : VM) (obj loc : ptr) : ShenandoahMessageBuffer :=
  let idx := h_heap_region_index_containing vm in
  let from_idx := idx loc in
  let to_idx := idx obj in
  let fwd_from_idx := idx (bp_get_raw_unchecked vm loc) in
  let fwd_to_idx := idx (bp_get_raw_unchecked vm obj) in
  [ connected_line "reference and object" (m_is_connected vm from_idx to_idx);
    connected_line "fwd(reference) and object" (m_is_connected vm fwd_from_idx to_idx);
    connected_line "reference and fwd(object)" (m_is_connected vm from_idx fwd_to_idx);
    connected_line "fwd(reference) and fwd(object)"
                   (m_is_connected vm fwd_from_idx fwd_to_idx) ].

Definition matrix_interior_pairs (vm : VM) (obj interior_loc : ptr)
  : ShenandoahMessageBuffer :=
  let idx := h_heap_region_index_containing vm in
  [ connected_line "interior-reference and object"
                   (m_is_connected vm (idx interior_loc) (idx obj));
    connected_line "interior-reference and fwd(object)"
                   (m_is_connected vm (idx interior_loc)
                                   (idx (bp_get_raw_unchecked vm obj))) ].

(** [total m]: the call returns. *)
Definition total {E A} (m : M E A) : Prop := exists t a, m = (t, Ret a).

(** [appends m m0]: the printer [m], started on some buffer [msg], makes the
    reads of [m0], started on the empty buffer, and returns [msg] followed
    by what [m0] returns. *)
Definition appends {E} (msg : ShenandoahMessageBuffer)
           (m m0 : M E ShenandoahMessageBuffer) : Prop :=
  m = (reads m0, Ret (msg ++ printed m0)).

(** ** check_correct, in the words of the specification

    The five sub-checks in their order; the first one violated gives the
    tier and the message, [None] when none is. *)
Definition correct_verdict (vm : VM) (o : ptr) : option (SafeLevel * string) :=
  let forward := bp_get_raw_unchecked vm in
  let region_index := h_heap_region_index_containing vm in
  if negb (h_is_in vm o) then
    Some (_safe_unknown, "oop must point to a heap address"%string)
  else if negb (h_is_in vm (forward o)) then
    Some (_safe_oop, "Forwardee must point to a heap address"%string)
  else if negb (forward o =? o) && h_is_full_gc_move_in_progress vm then
    Some (_safe_all, "Non-trivial forwarding pointer during Full GC moves, probable bug."%string)
  else if negb (forward o =? o) && (region_index (forward o) =? region_index o) then
    Some (_safe_all, "Forwardee should be self, or another region"%string)
  else if negb (forward o =? o) && negb (forward (forward o) =? forward o) then
    Some (_safe_all, "Multiple forwardings"%string)
  else None.

(** The conditions of the five sub-checks, none of which holds. *)
Definition no_violation (vm : VM) (o : ptr) : Prop :=
  let forward := bp_get_raw_unchecked vm in
  h_is_in vm o = true /\
  h_is_in vm (forward o) = true /\
  ~ (forward o <> o /\ h_is_full_gc_move_in_progress vm = true) /\
  ~ (forward o <> o /\
     h_heap_region_index_containing vm (forward o) =
     h_heap_region_index_containing vm o) /\
  ~ (forward o <> o /\ forward (forward o) <> forward o).

(** ** check_in_correct_region, in the words of the specification

    The allocation size of an object, whether it is humongous, and the span
    of regions of a humongous object: it starts at the number of the region
    the object lies in, and the number of regions comes from the
    allocation size in bytes. *)
Definition alloc_size (vm : VM) (o : ptr) : Z :=
  size_t_wrap (o_size vm o + bp_word_size vm).

Definition is_humongous (vm : VM) (o : ptr) : bool :=
  r_humongous_threshold_words vm <? alloc_size vm o.

Definition span_first (vm : VM) (o : ptr) : Z :=
  r_region_number vm (h_heap_region_containing vm o).

Definition span_regions (vm : VM) (o : ptr) : Z :=
  r_required_regions vm (size_t_wrap (alloc_size vm o * g_HeapWordSize vm)).

Definition span_end (vm : VM) (o : ptr) : Z :=
  size_t_wrap (span_first vm o + span_regions vm o).

(** The first region of the span is a humongous start, every other one a
    humongous continuation. *)
Definition chain_flagged (vm : VM) (first last : Z) : Prop :=
  forall j, first <= j < last ->
    (j = first -> r_is_humongous_start vm (h_regions_get vm j) = true) /\
    (j <> first -> r_is_humongous_continuation vm (h_regions_get vm j) = true).

Definition start_flag_missing (vm : VM) (first last : Z) : Prop :=
  first < last /\ r_is_humongous_start vm (h_regions_get vm first) = false.

Definition continuation_flag_missing (vm : VM) (first last : Z) : Prop :=
  exists j, first < j < last /\
            r_is_humongous_continuation vm (h_regions_get vm j) = false.

(** ** A small heap to run the assertions on

    Eight regions of 1024 bytes; the heap is the addresses from 1024 up to
    8192, region [i] covers [1024 * i .. 1024 * i + 1023] and is the
    region object at address [100000 + i].  A heap word has 8 bytes, the
    forwarding word takes one heap word and objects above 128 words are
    humongous.  What varies between the runs is given as arguments. *)
Definition sample_vm (forward : ptr -> ptr) (full_gc : bool)
           (active hstart hcont : Z -> bool) (words : ptr -> Z)
           (cset : ptr -> bool) (matrix : bool) (installed : ptr) : VM :=
  {| h_is_in := fun p => (1024 <=? p) && (p <? 8192);
     h_heap_region_containing := fun p => 100000 + p / 1024;
     h_heap_region_index_containing := fun p => p / 1024;
     h_regions_get := fun i => 100000 + i;
     h_allocated_after_complete_mark_start := fun _ => false;
     h_allocated_after_next_mark_start := fun _ => true;
     h_is_marked_complete := fun _ => true;
     h_is_marked_next := fun _ => false;
     h_in_collection_set := cset;
     h_is_full_gc_move_in_progress := full_gc;
     h_addr_is_alive := 900;
     h_addr_forwarded_is_alive := 908;
     h_is_alive_closure := 900;
     m_is_connected := fun i j => i <? j;
     rp_is_alive_non_header := installed;
     o_klass := fun p => 200000 + p;
     k_external_name := fun _ => "java.lang.Object"%string;
     o_size := words;
     bp_get_raw_unchecked := forward;
     bp_word_size := 1;
     r_print_on := fun _ => "|region|"%string;
     r_is_active := fun r => active (r - 100000);
     r_is_humongous_start := fun r => hstart (r - 100000);
     r_is_humongous_continuation := fun r => hcont (r - 100000);
     r_region_number := fun r => r - 100000;
     r_humongous_threshold_words := 128;
     r_required_regions := fun bytes => Z.shiftr (bytes + 1024 - 1) 10;
     g_UseShenandoahMatrix := matrix;
     g_HeapWordSize := 8;
     os_print_location := fun _ => "<unknown>"%string |}.

Definition no_region : Z -> bool := fun _ => false.
Definition every_region : Z -> bool := fun _ => true.
Definition small_objects : ptr -> Z := fun _ => 2.
Definition empty_cset : ptr -> bool := fun _ => false.
Definition not_forwarded : ptr -> ptr := fun p => p.

(** All objects in place, every region active, no humongous object. *)
Definition vm_quiet : VM :=
  sample_vm not_forwarded false every_region no_region no_region
            small_objects empty_cset false NULL.

(** The object at 2048 is forwarded to 2056, inside its own region. *)
Definition vm_same_region : VM :=
  sample_vm (fun p => if p =? 2048 then 2056 else p) false
            every_region no_region no_region small_objects empty_cset false NULL.

(** The object at 2048 is forwarded to 4096, in another region. *)
Definition vm_forwarded : VM :=
  sample_vm (fun p => if p =? 2048 then 4096 else p) false
            every_region no_region no_region small_objects empty_cset false NULL.

(** A Full GC move is in progress and every address is in the collection
    set; no object is forwarded. *)
Definition vm_full_gc : VM :=
  sample_vm not_forwarded true every_region no_region no_region
            small_objects (fun _ => true) true NULL.

(** The reference processor has a closure installed that is not the
    heap's own. *)
Definition vm_rp_stray : VM :=
  sample_vm not_forwarded false every_region no_region no_region
            small_objects empty_cset false 777.

(** The reference processor has the heap's closure installed. *)
Definition vm_rp_installed : VM :=
  sample_vm not_forwarded false every_region no_region no_region
            small_objects empty_cset false 900.

(** A humongous object at 2048: 300 words, 301 with its forwarding word,
    2408 bytes, three regions (2, 3 and 4).  [hcont] says which regions are
    flagged as continuations; region 2 is the humongous start. *)
Definition vm_humongous (hcont : Z -> bool) : VM :=
  sample_vm not_forwarded false every_region (fun i => i =? 2) hcont
            (fun p => if p =? 2048 then 300 else 2) empty_cset false NULL.

(** Region 4, the last of the span, is not flagged. *)
Definition vm_humongous_short : VM := vm_humongous (fun i => i =? 3).

Definition vm_humongous_ok : VM := vm_humongous (fun i => (i =? 3) || (i =? 4)).

(** No region is active. *)
Definition vm_inactive : VM :=
  sample_vm not_forwarded false no_region no_region no_region
            small_objects empty_cset false NULL.

(** The object at 2048 is forwarded to 4096, which is forwarded to 6144. *)
Definition vm_twice_forwarded : VM :=
  sample_vm (fun p => if p =? 2048 then 4096 else if p =? 4096 then 6144 else p)
            false every_region no_region no_region small_objects empty_cset true NULL.

(** As [vm_forwarded], with the connection matrix in use. *)
Definition vm_matrix : VM :=
  sample_vm (fun p => if p =? 2048 then 4096 else p) false
            every_region no_region no_region small_objects empty_cset true NULL.

(** ** Classes of reads *)

(** The queries about an object, as opposed to those about an address: its
    type descriptor, its size, its forwarding word, its mark bits and its
    allocation epoch. *)
Definition object_query (r : read) : bool :=
  match r with
  | R_klass _ | R_external_name _ | R_size _ | R_get_raw_unchecked _
  | R_is_marked_complete _ | R_is_marked_next _
  | R_allocated_after_complete_mark_start _
  | R_allocated_after_next_mark_start _ => true
  | _ => false
  end.

(** No read of the call is an object query. *)
Definition no_object_query {E A} (m : M E A) : Prop :=
  forallb (fun r => negb (object_query r)) (reads m) = true.

(** The queries to the table of regions and to the humongous flags. *)
Definition region_table_query (r : read) : bool :=
  match r with
  | R_regions_get _ | R_is_humongous_start _ | R_is_humongous_continuation _ => true
  | _ => false
  end.

(** What a read may be when the regions from [i] up to [last] are walked
    for a span that starts at [first]: a region of the table is taken from
    these positions only, the start flag is asked of the region at [first],
    the continuation flag of a region at a later position. *)
Definition span_read (vm : VM) (first last i : Z) (r : read) : Prop :=
  match r with
  | R_regions_get j => i <= j < last
  | R_is_humongous_start reg =>
    i <= first < last /\ reg = h_regions_get vm first
  | R_is_humongous_continuation reg =>
    exists j, i <= j < last /\ first < j /\ reg = h_regions_get vm j
  | _ => True
  end.

(** A call that dies does so with a report of [print_failure] made for the
    interior location, the file and the line given, and for no referring
    location. *)
Definition reports_for {A} (vm : VM) (il : ptr) (file : string) (line : Z)
           (m : M failure A) : Prop :=
  forall f, result m = Died f ->
    f_loc f = NULL /\ f_interior_loc f = il /\
    err_file (f_error f) = file /\ err_line (f_error f) = line /\
    err_message (f_error f) =
      failure_message vm (f_level f) (f_obj f) il NULL (f_phase f) (f_label f).

(** ** Laws of the monad *)

Section MonadLaws.
Context {E A B : Type}.

Lemma result_bind (m : M E A) (k : A -> M E B) :
  result (bind m k) =
  match result m with
  | Ret a => result (k a)
  | Died e => Died e
  end.
Proof.
  destruct m as [t [a | e]]; cbn; [ | reflexivity ].
  destruct (k a); reflexivity.
Qed.

Lemma reads_bind (m : M E A) (k : A -> M E B) :
  reads (bind m k) =
  match result m with
  | Ret a => reads m ++ reads (k a)
  | Died _ => reads m
  end.
Proof.
  destruct m as [t [a | e]]; cbn; [ | reflexivity ].
  destruct (k a); reflexivity.
Qed.

End MonadLaws.

Lemma total_ret {E A} (a : A) : total (@ret E A a).
Proof. now exists [], a. Qed.

Lemma total_query {E A} r (v : A) : total (@query E A r v).
Proof. now exists [r], v. Qed.

Lemma total_bind {E A B} (m : M E A) (k : A -> M E B) :
  total m -> (forall a, total (k a)) -> total (bind m k).
Proof.
  intros (t & a & ->) Hk. destruct (Hk a) as (t' & b & Hb).
  exists (t ++ t'), b. cbn. now rewrite Hb.
Qed.

Lemma total_if {E A} (c : bool) (m1 m2 : M E A) :
  total m1 -> total m2 -> total (if c then m1 else m2).
Proof. now destruct c. Qed.

Lemma total_result {E A} (m : M E A) :
  total m -> exists a, result m = Ret a.
Proof. intros (t & a & ->). now exists a. Qed.

Ltac total_tac :=
  repeat first
    [ apply total_ret | apply total_query
    | apply total_bind; [ | intro ]
    | apply total_if ].

Section PrintersReturn.
Context {E : Type} (vm : VM).

Lemma print_obj_total msg obj : total (@print_obj E vm msg obj).
Proof. unfold print_obj; total_tac. Qed.

Lemma print_non_obj_total msg loc : total (@print_non_obj E vm msg loc).
Proof. unfold print_non_obj; total_tac. Qed.

Lemma print_obj_safe_total msg loc : total (@print_obj_safe E vm msg loc).
Proof. unfold print_obj_safe; total_tac. Qed.

Lemma pf_referenced_from_total msg il loc b :
  total (@pf_referenced_from vm E msg il loc b).
Proof.
  unfold pf_referenced_from.
  apply total_bind; [ | intro; apply total_ret ].
  repeat apply total_if;
    [ apply print_obj_total | apply print_non_obj_total | apply total_ret ].
Qed.

Lemma pf_object_total msg level obj : total (@pf_object vm E msg level obj).
Proof.
  unfold pf_object.
  apply total_bind; [ | intro; apply total_ret ].
  apply total_if; [ apply print_obj_total | apply print_obj_safe_total ].
Qed.

Lemma pf_forwardee_total msg level obj : total (@pf_forwardee vm E msg level obj).
Proof.
  unfold pf_forwardee.
  apply total_if; [ | apply total_ret ].
  apply total_bind; [ apply total_query | intro fwd ].
  apply total_bind; [ | intro; apply total_ret ].
  repeat apply total_if;
    [ apply print_obj_total | apply print_obj_safe_total | apply total_ret ].
Qed.

Lemma pf_second_forwardee_total msg level obj :
  total (@pf_second_forwardee vm E msg level obj).
Proof.
  unfold pf_second_forwardee.
  apply total_if; [ | apply total_ret ].
  apply total_bind; [ apply total_query | intro fwd ].
  apply total_bind; [ apply total_query | intro fwd2 ].
  apply total_if; [ | apply total_ret ].
  apply total_bind; [ apply print_obj_safe_total | intro; apply total_ret ].
Qed.

Lemma pf_matrix_connections_total msg level obj il loc b1 b2 :
  total (@pf_matrix_connections vm E msg level obj il loc b1 b2).
Proof. unfold pf_matrix_connections; total_tac. Qed.

Lemma non_null_in_heap_total p : total (@non_null_in_heap vm E p).
Proof. unfold non_null_in_heap; total_tac. Qed.
End PrintersReturn.

(** ** print_failure never returns *)

Arguments print_obj : simpl never.
Arguments print_obj_safe : simpl never.
Arguments print_non_obj : simpl never.

Lemma print_failure_result {A} vm level obj il loc phase label file line :
  exists msg,
    result (@print_failure vm A level obj il loc phase label file line) =
    Died {| f_level := level; f_obj := obj; f_interior_loc := il; f_loc := loc;
            f_phase := phase; f_label := label;
            f_error := {| err_file := file; err_line := line; err_message := msg |} |}.
Proof.
  unfold print_failure.
  rewrite result_bind.
  destruct (total_result _ (non_null_in_heap_total (E:=failure) vm loc)) as [b1 ->].
  rewrite result_bind.
  destruct (total_result _ (non_null_in_heap_total (E:=failure) vm il)) as [b2 ->].
  rewrite result_bind.
  destruct (total_result _ (pf_referenced_from_total (E:=failure) vm
              [Append ("%s; %s" ++ nl ++ nl) [A_str phase; A_str label]] il loc b1))
    as [m1 ->].
  rewrite result_bind.
  destruct (total_result _ (pf_object_total (E:=failure) vm m1 level obj)) as [m2 ->].
  rewrite result_bind.
  destruct (total_result _ (pf_forwardee_total (E:=failure) vm m2 level obj)) as [m3 ->].
  rewrite result_bind.
  destruct (total_result _ (pf_second_forwardee_total (E:=failure) vm m3 level obj))
    as [m4 ->].
  rewrite result_bind.
  destruct (total_result _ (pf_matrix_connections_total (E:=failure) vm m4 level obj
              il loc b1 b2)) as [m5 ->].
  exists m5. reflexivity.
Qed.

Lemma verdict_print_failure {A} vm level obj il loc phase label file line :
  verdict (@print_failure vm A level obj il loc phase label file line) =
  Some (level, label).
Proof.
  unfold verdict.
  destruct (print_failure_result (A:=A) vm level obj il loc phase label file line)
    as [msg ->].
  reflexivity.
Qed.

Lemma verdict_bind {A B} (m : M failure A) (k : A -> M failure B) :
  verdict (bind m k) =
  match result m with
  | Ret a => verdict (k a)
  | Died f => Some (f_level f, f_label f)
  end.
Proof.
  unfold verdict. rewrite result_bind. destruct (result m); reflexivity.
Qed.

Lemma verdict_bind_query {A B} r (v : A) (k : A -> M failure B) :
  verdict (bind (query r v) k) = verdict (k v).
Proof. rewrite verdict_bind. reflexivity. Qed.

Lemma verdict_bind_ret {A B} (v : A) (k : A -> M failure B) :
  verdict (bind (ret v) k) = verdict (k v).
Proof. rewrite verdict_bind. reflexivity. Qed.

Lemma verdict_bind_print_failure {A B} vm level obj il loc phase label file line
      (k : A -> M failure B) :
  verdict (bind (print_failure vm level obj il loc phase label file line) k) =
  Some (level, label).
Proof.
  rewrite verdict_bind.
  destruct (print_failure_result (A:=A) vm level obj il loc phase label file line)
    as [msg ->].
  reflexivity.
Qed.

Lemma result_bind_query {E A B} r (v : A) (k : A -> M E B) :
  result (bind (query r v) k) = result (k v).
Proof. rewrite result_bind. reflexivity. Qed.

Lemma result_bind_ret {E A B} (v : A) (k : A -> M E B) :
  result (bind (ret v) k) = result (k v).
Proof. rewrite result_bind. reflexivity. Qed.

Lemma verdict_ret {A} (a : A) : verdict (@ret failure A a) = None.
Proof. reflexivity. Qed.

Lemma verdict_none_returns {A} (m : M failure A) :
  verdict m = None <-> returns m = true.
Proof.
  unfold verdict, returns. destruct (result m); split; intro H; congruence.
Qed.

Arguments print_failure : simpl never.

Ltac verdict_step :=
  first
    [ rewrite verdict_bind_print_failure
    | rewrite verdict_print_failure
    | rewrite verdict_bind_query
    | rewrite verdict_bind_ret
    | rewrite verdict_ret ].

(** ** assert_correct *)

Lemma assert_correct_verdict vm il obj file line :
  verdict (assert_correct vm il obj file line) = correct_verdict vm obj.
Proof.
  unfold assert_correct, correct_verdict, unsafe_equals,
    is_in, get_raw_unchecked, is_full_gc_move_in_progress,
    heap_region_index_containing.
  set (fwd := bp_get_raw_unchecked vm obj).
  rewrite (Z.eqb_sym fwd obj), (Z.eqb_sym (bp_get_raw_unchecked vm fwd) fwd).
  rewrite verdict_bind_query.
  destruct (h_is_in vm obj); cbn [negb]; [ | now verdict_step ].
  repeat verdict_step.
  destruct (h_is_in vm fwd); cbn [negb]; [ | now verdict_step ].
  repeat verdict_step.
  destruct (obj =? fwd); cbn [negb andb].
  - repeat verdict_step. reflexivity.
  - repeat verdict_step.
    destruct (h_is_full_gc_move_in_progress vm); [ now verdict_step | ].
    repeat verdict_step.
    rewrite verdict_bind, !result_bind_query. cbn [result ret snd].
    destruct (h_heap_region_index_containing vm fwd
              =? h_heap_region_index_containing vm obj); [ now verdict_step | ].
    repeat verdict_step.
    destruct (fwd =? bp_get_raw_unchecked vm fwd); cbn [negb];
      now repeat verdict_step.
Qed.

Lemma returns_assert_correct vm il obj file line :
  returns (assert_correct vm il obj file line) = true <->
  correct_verdict vm obj = None.
Proof.
  split; intro H.
  - apply verdict_none_returns in H. now rewrite assert_correct_verdict in H.
  - apply verdict_none_returns. now rewrite assert_correct_verdict.
Qed.

(** What follows a call of [assert_correct] runs only when it returned. *)
Lemma verdict_after_assert_correct {B} vm il obj file line (k : unit -> M failure B) :
  verdict (bind (assert_correct vm il obj file line) k) =
  match correct_verdict vm obj with
  | Some v => Some v
  | None => verdict (k tt)
  end.
Proof.
  rewrite verdict_bind, <- (assert_correct_verdict vm il obj file line).
  unfold verdict.
  destruct (result (assert_correct vm il obj file line)) as [[] | f]; reflexivity.
Qed.

Lemma correct_verdict_none vm o :
  correct_verdict vm o = None <-> no_violation vm o.
Proof.
  unfold correct_verdict, no_violation.
  destruct (h_is_in vm o); cbn [negb]; [ | split; [ discriminate | intuition discriminate ] ].
  destruct (h_is_in vm (bp_get_raw_unchecked vm o)); cbn [negb];
    [ | split; [ discriminate | intuition discriminate ] ].
  destruct (Z.eqb_spec (bp_get_raw_unchecked vm o) o) as [e | ne]; cbn [negb andb].
  - split; [ intros _ | reflexivity ].
    repeat split; intros [H _]; now apply H.
  - destruct (h_is_full_gc_move_in_progress vm);
      [ split; [ discriminate | intros (_ & _ & H & _); exfalso; now apply H ] | ].
    destruct (Z.eqb_spec
                (h_heap_region_index_containing vm (bp_get_raw_unchecked vm o))
                (h_heap_region_index_containing vm o)) as [ei | nei];
      [ split; [ discriminate | intros (_ & _ & _ & H & _); exfalso; now apply H ] | ].
    destruct (Z.eqb_spec (bp_get_raw_unchecked vm (bp_get_raw_unchecked vm o))
                         (bp_get_raw_unchecked vm o)) as [e2 | ne2]; cbn [negb].
    + split; [ intros _ | reflexivity ].
      repeat split; try (intros [_ H]; congruence).
    + split; [ discriminate | intros (_ & _ & _ & _ & H); exfalso; now apply H ].
Qed.

(** C1. [assert_correct] makes its five sub-checks in the order object in
    heap, forwardee in heap, no forwarding during a Full GC move, forwardee
    in another region, single forwarding; the first one violated gives the
    level and the message of the report, which is about the object and the
    interior location given, and the call returns exactly when none of the
    five conditions holds; it has then read the heap in that same order. *)
Theorem assert_correct_first_violation vm il obj file line :
  verdict (assert_correct vm il obj file line) = correct_verdict vm obj /\
  (forall f, result (assert_correct vm il obj file line) = Died f ->
             f_obj f = obj /\ f_interior_loc f = il /\ f_loc f = NULL /\
             f_phase f = "Shenandoah assert_correct failed"%string /\
             err_file (f_error f) = file /\ err_line (f_error f) = line) /\
  (returns (assert_correct vm il obj file line) = true <-> no_violation vm obj) /\
  (returns (assert_correct vm il obj file line) = true ->
   let fwd := bp_get_raw_unchecked vm obj in
   reads (assert_correct vm il obj file line) =
   [R_is_in obj; R_get_raw_unchecked obj; R_is_in fwd]
   ++ (if unsafe_equals obj fwd then []
       else [R_is_full_gc_move_in_progress;
             R_heap_region_index_containing fwd;
             R_heap_region_index_containing obj;
             R_get_raw_unchecked fwd])).
Proof.
  split; [ apply assert_correct_verdict | split; [ | split ] ].
  - intros f.
    unfold assert_correct, is_in, get_raw_unchecked, is_full_gc_move_in_progress,
      heap_region_index_containing.
    repeat
      (first [ rewrite result_bind_query | rewrite result_bind_ret
             | rewrite result_bind
             | match goal with
               | |- context [result (print_failure ?v ?l ?o ?i ?lc ?p ?lb ?fl ?ln)] =>
                 let msg := fresh "msg" in
                 let Hm := fresh "Hm" in
                 destruct (print_failure_result (A:=unit) v l o i lc p lb fl ln)
                   as [msg Hm]; rewrite Hm
               | |- context [if ?c then _ else _] => destruct c
               end
             | progress cbn [result ret snd query] ]);
      intros H; try discriminate H; injection H as <-; cbn; auto 10.
  - rewrite returns_assert_correct. apply correct_verdict_none.
  - intros Hr. apply returns_assert_correct, correct_verdict_none in Hr.
    destruct Hr as (H1 & H2 & H3 & H4 & H5). cbn zeta.
    unfold assert_correct, is_in, get_raw_unchecked, is_full_gc_move_in_progress,
      heap_region_index_containing, unsafe_equals, query.
    cbn. rewrite H1, H2. cbn.
    destruct (Z.eqb_spec obj (bp_get_raw_unchecked vm obj)) as [e | ne]; cbn;
      [ reflexivity | ].
    assert (Hf : bp_get_raw_unchecked vm obj <> obj) by congruence.
    destruct (h_is_full_gc_move_in_progress vm); [ now elim H3 | ]. cbn.
    destruct (Z.eqb_spec
                (h_heap_region_index_containing vm (bp_get_raw_unchecked vm obj))
                (h_heap_region_index_containing vm obj)); [ now elim H4 | ]. cbn.
    destruct (Z.eqb_spec (bp_get_raw_unchecked vm obj)
                         (bp_get_raw_unchecked vm (bp_get_raw_unchecked vm obj)));
      cbn; [ reflexivity | ].
    elim H5. split; congruence.
Qed.

Lemma assert_correct_first_violation_witness :
  verdict (assert_correct vm_same_region 1032 2048 "test.cpp" 1) =
    Some (_safe_all, "Forwardee should be self, or another region"%string) /\
  returns (assert_correct vm_forwarded 1032 2048 "test.cpp" 1) = true.
Proof.
  split.
  - destruct (assert_correct_first_violation vm_same_region 1032 2048 "test.cpp" 1)
      as (Hv & _).
    rewrite Hv. reflexivity.
  - destruct (assert_correct_first_violation vm_forwarded 1032 2048 "test.cpp" 1)
      as (_ & _ & Hr & _).
    apply Hr. unfold no_violation. cbn.
    repeat split; intros [H1 H2]; first [ discriminate H2 | now elim H2 ].
Defined.

Lemma dies_verdict {A} (m : M failure A) :
  dies m = true <-> verdict m <> None.
Proof.
  unfold dies, returns, verdict.
  destruct (result m); cbn; split; intro H; congruence.
Qed.

(** Scenario B of the specification: a forwardee inside the object's own
    region. *)
Example assert_correct_same_region :
  verdict (assert_correct vm_same_region NULL 2048 "test.cpp" 1) =
  Some (_safe_all, "Forwardee should be self, or another region"%string).
Proof. vm_compute. reflexivity. Qed.

Example assert_correct_forwarded_passes :
  assert_correct vm_forwarded NULL 2048 "test.cpp" 1 =
  ([R_is_in 2048; R_get_raw_unchecked 2048; R_is_in 4096;
    R_is_full_gc_move_in_progress;
    R_heap_region_index_containing 4096; R_heap_region_index_containing 2048;
    R_get_raw_unchecked 4096], Ret tt).
Proof. vm_compute. reflexivity. Qed.

(** C10. An object in the heap whose forwarding word points to itself
    passes [assert_correct] on every state of the VM: the call reads the
    heap membership of the object, its forwarding word and the heap
    membership again, and nothing else, so the Full GC flag, the region
    indices and the second forwarding word are never looked at. *)
Theorem assert_correct_self_forwarded vm il obj file line :
  h_is_in vm obj = true ->
  bp_get_raw_unchecked vm obj = obj ->
  assert_correct vm il obj file line =
  ([R_is_in obj; R_get_raw_unchecked obj; R_is_in obj], Ret tt).
Proof.
  intros Hin Hfwd.
  unfold assert_correct, is_in, get_raw_unchecked, unsafe_equals, query.
  cbn. rewrite Hfwd, Hin, Z.eqb_refl.
  reflexivity.
Qed.

Lemma assert_correct_self_forwarded_witness :
  h_is_in vm_full_gc 2048 = true /\
  bp_get_raw_unchecked vm_full_gc 2048 = 2048 /\
  h_is_full_gc_move_in_progress vm_full_gc = true /\
  h_in_collection_set vm_full_gc 2048 = true /\
  assert_correct vm_full_gc 1032 2048 "test.cpp" 7 =
  ([R_is_in 2048; R_get_raw_unchecked 2048; R_is_in 2048], Ret tt).
Proof.
  split; [ reflexivity | ].
  split; [ reflexivity | ].
  split; [ reflexivity | ].
  split; [ reflexivity | ].
  apply (assert_correct_self_forwarded vm_full_gc 1032 2048 "test.cpp" 7);
    reflexivity.
Defined.

(** Scenario A of the specification: an address outside the heap is
    reported at [_safe_unknown], and no type descriptor is read. *)
Example assert_in_heap_outside :
  verdict (assert_in_heap vm_quiet NULL 512 "test.cpp" 2) =
    Some (_safe_unknown, "oop must point to a heap address"%string) /\
  reads (assert_in_heap vm_quiet NULL 512 "test.cpp" 2) =
    [R_is_in 512; R_is_in 512].
Proof. vm_compute. split; reflexivity. Qed.

(** ** assert_forwarded and assert_not_forwarded *)

Lemma correct_verdict_returns vm il obj file line :
  returns (assert_correct vm il obj file line) = true ->
  correct_verdict vm obj = None.
Proof. apply returns_assert_correct. Qed.

(** C9. For an object that passes [assert_correct]: [assert_forwarded]
    dies, with "Object should be forwarded", exactly when the forwarding
    word points to the object itself, and [assert_not_forwarded] dies,
    with "Object should not be forwarded", exactly when it does not; in
    the other case each of them returns. *)
Theorem assert_forwarded_iff vm il obj file line :
  returns (assert_correct vm il obj file line) = true ->
  verdict (assert_forwarded vm il obj file line) =
    (if bp_get_raw_unchecked vm obj =? obj
     then Some (_safe_all, "Object should be forwarded"%string) else None) /\
  (dies (assert_forwarded vm il obj file line) = true <->
   bp_get_raw_unchecked vm obj = obj) /\
  verdict (assert_not_forwarded vm il obj file line) =
    (if bp_get_raw_unchecked vm obj =? obj
     then None else Some (_safe_all, "Object should not be forwarded"%string)) /\
  (dies (assert_not_forwarded vm il obj file line) = true <->
   bp_get_raw_unchecked vm obj <> obj).
Proof.
  intros Hc. apply correct_verdict_returns in Hc.
  assert (Hf : verdict (assert_forwarded vm il obj file line) =
               if bp_get_raw_unchecked vm obj =? obj
               then Some (_safe_all, "Object should be forwarded"%string) else None).
  { unfold assert_forwarded, get_raw_unchecked, unsafe_equals.
    rewrite verdict_after_assert_correct, Hc, verdict_bind_query, Z.eqb_sym.
    destruct (bp_get_raw_unchecked vm obj =? obj); cbn [negb]; now verdict_step. }
  assert (Hn : verdict (assert_not_forwarded vm il obj file line) =
               if bp_get_raw_unchecked vm obj =? obj
               then None else Some (_safe_all, "Object should not be forwarded"%string)).
  { unfold assert_not_forwarded, get_raw_unchecked, unsafe_equals.
    rewrite verdict_after_assert_correct, Hc, verdict_bind_query, Z.eqb_sym.
    destruct (bp_get_raw_unchecked vm obj =? obj); cbn [negb]; now verdict_step. }
  repeat split; try assumption.
  - rewrite dies_verdict, Hf.
    destruct (Z.eqb_spec (bp_get_raw_unchecked vm obj) obj); congruence.
  - rewrite dies_verdict, Hf. intros ->. rewrite Z.eqb_refl. discriminate.
  - rewrite dies_verdict, Hn.
    destruct (Z.eqb_spec (bp_get_raw_unchecked vm obj) obj); congruence.
  - rewrite dies_verdict, Hn.
    destruct (Z.eqb_spec (bp_get_raw_unchecked vm obj) obj); congruence.
Qed.

(** Scenario C of the specification, through the theorem. *)
Lemma assert_forwarded_iff_witness :
  returns (assert_correct vm_quiet NULL 2048 "test.cpp" 3) = true /\
  verdict (assert_forwarded vm_quiet NULL 2048 "test.cpp" 3) =
    Some (_safe_all, "Object should be forwarded"%string) /\
  verdict (assert_not_forwarded vm_quiet NULL 2048 "test.cpp" 3) = None.
Proof.
  assert (H : returns (assert_correct vm_quiet NULL 2048 "test.cpp" 3) = true)
    by reflexivity.
  split; [ exact H | ].
  destruct (assert_forwarded_iff vm_quiet NULL 2048 "test.cpp" 3 H)
    as (Hf & _ & Hn & _).
  split; [ exact Hf | exact Hn ].
Defined.

(** ** The printers append to the buffer they are given *)

Section Frames.
Context {E : Type} (vm : VM).

Lemma print_obj_appends msg obj :
  appends msg (@print_obj E vm msg obj) (print_obj vm [] obj).
Proof.
  unfold print_obj, appends, printed, append. cbn.
  rewrite <- ?app_assoc. reflexivity.
Qed.

Lemma print_non_obj_appends msg loc :
  appends msg (@print_non_obj E vm msg loc) (print_non_obj vm [] loc).
Proof.
  unfold print_non_obj, is_in, query, appends, printed, append. cbn.
  destruct (h_is_in vm loc); cbn; rewrite <- ?app_assoc; reflexivity.
Qed.

Lemma print_obj_safe_appends msg loc :
  appends msg (@print_obj_safe E vm msg loc) (print_obj_safe vm [] loc).
Proof.
  unfold print_obj_safe, is_in, heap_region_containing, query, appends,
    printed, append. cbn.
  destruct (h_is_in vm loc); cbn; [ | reflexivity ].
  destruct (h_heap_region_containing vm loc =? NULL); cbn;
    rewrite <- ?app_assoc; reflexivity.
Qed.

End Frames.

Arguments not_unless : simpl never.

Ltac unfold_printers :=
  unfold pf_referenced_from, pf_object, pf_forwardee, pf_second_forwardee,
    pf_matrix_connections, non_null_in_heap,
    print_obj, print_non_obj, print_obj_safe,
    is_in, heap_region_containing, heap_region_index_containing,
    allocated_after_complete_mark_start, allocated_after_next_mark_start,
    is_marked_complete, is_marked_next, in_collection_set, is_connected,
    klass, external_name, get_raw_unchecked, print_on, print_location,
    unsafe_equals, query.

Ltac split_ifs :=
  cbn;
  repeat (match goal with
          | |- context [if ?c then _ else _] => destruct c eqn:?
          end; cbn).

Section SectionFrames.
Context {E : Type} (vm : VM).

Lemma pf_referenced_from_appends msg il loc b :
  appends msg (@pf_referenced_from vm E msg il loc b)
          (pf_referenced_from vm [] il loc b).
Proof.
  unfold appends, printed, append. unfold_printers. unfold append.
  split_ifs; rewrite <- ?app_assoc; reflexivity.
Qed.

Lemma pf_object_appends msg level obj :
  appends msg (@pf_object vm E msg level obj) (pf_object vm [] level obj).
Proof.
  unfold appends, printed, append. unfold_printers. unfold append.
  split_ifs; rewrite <- ?app_assoc; reflexivity.
Qed.

Lemma pf_forwardee_appends msg level obj :
  appends msg (@pf_forwardee vm E msg level obj) (pf_forwardee vm [] level obj).
Proof.
  unfold appends, printed, append. unfold_printers. unfold append.
  split_ifs; rewrite <- ?app_assoc, ?app_nil_r; reflexivity.
Qed.

Lemma pf_second_forwardee_appends msg level obj :
  appends msg (@pf_second_forwardee vm E msg level obj)
          (pf_second_forwardee vm [] level obj).
Proof.
  unfold appends, printed, append. unfold_printers. unfold append.
  split_ifs; rewrite <- ?app_assoc, ?app_nil_r; reflexivity.
Qed.

Lemma pf_matrix_connections_appends msg level obj il loc b1 b2 :
  appends msg (@pf_matrix_connections vm E msg level obj il loc b1 b2)
          (pf_matrix_connections vm [] level obj il loc b1 b2).
Proof.
  unfold appends, printed, append. unfold_printers. unfold append.
  split_ifs; rewrite <- ?app_assoc, ?app_nil_r; reflexivity.
Qed.

Lemma non_null_in_heap_eq p :
  @non_null_in_heap vm E p = (reads (@non_null_in_heap vm E p), Ret (in_heap vm p)).
Proof.
  unfold non_null_in_heap, in_heap, is_in, query.
  destruct (negb (p =? NULL)); reflexivity.
Qed.
End SectionFrames.

(** [print_failure] reads and prints section after section, and dies with
    the sections in their order. *)
Lemma print_failure_eq {A} vm level obj il loc phase label file line :
  @print_failure vm A level obj il loc phase label file line =
  (failure_reads vm level obj il loc,
   Died {| f_level := level; f_obj := obj; f_interior_loc := il; f_loc := loc;
           f_phase := phase; f_label := label;
           f_error := {| err_file := file; err_line := line;
                         err_message :=
                           failure_message vm level obj il loc phase label |} |}).
Proof.
  unfold print_failure, failure_reads, failure_message,
    referenced_from_section, object_section, forwardee_section,
    second_forwardee_section, matrix_connections_section.
  rewrite (non_null_in_heap_eq (E:=failure) vm loc). cbn [bind].
  rewrite (non_null_in_heap_eq (E:=failure) vm il). cbn [bind].
  rewrite (pf_referenced_from_appends (E:=failure) vm _ il loc (in_heap vm loc)).
  cbn [bind].
  rewrite (pf_object_appends (E:=failure) vm _ level obj). cbn [bind].
  rewrite (pf_forwardee_appends (E:=failure) vm _ level obj). cbn [bind].
  rewrite (pf_second_forwardee_appends (E:=failure) vm _ level obj). cbn [bind].
  rewrite (pf_matrix_connections_appends (E:=failure) vm _ level obj il loc
             (in_heap vm loc) (in_heap vm il)).
  cbn [bind report_vm_error die reads fst].
  rewrite app_nil_r, <- !app_assoc. reflexivity.
Qed.

(** ** assert_not_in_cset and assert_not_in_cset_loc *)

Ltac unfold_sections :=
  unfold failure_reads, failure_message, referenced_from_section,
    object_section, forwardee_section, second_forwardee_section,
    matrix_connections_section, in_heap, reads, printed, result.

(** Below [_safe_oop], and without a referring location, a report is
    printed without reading any forwarding word. *)
Lemma failure_reads_unknown_no_forwarding vm obj il p :
  ~ In (R_get_raw_unchecked p) (failure_reads vm _safe_unknown obj il NULL).
Proof.
  unfold_sections. unfold_printers.
  split_ifs; intuition discriminate.
Qed.

Lemma assert_not_in_cset_loc_eq vm il file line :
  assert_not_in_cset_loc vm il file line =
  if h_in_collection_set vm il then
    (R_in_collection_set il :: failure_reads vm _safe_unknown NULL il NULL,
     Died {| f_level := _safe_unknown; f_obj := NULL; f_interior_loc := il;
             f_loc := NULL;
             f_phase := "Shenandoah assert_not_in_cset_loc failed";
             f_label := "Interior location should not be in collection set";
             f_error :=
               {| err_file := file; err_line := line;
                  err_message :=
                    failure_message vm _safe_unknown NULL il NULL
                      "Shenandoah assert_not_in_cset_loc failed"
                      "Interior location should not be in collection set" |} |})
  else ([R_in_collection_set il], Ret tt).
Proof.
  unfold assert_not_in_cset_loc, in_collection_set, query.
  destruct (h_in_collection_set vm il); [ | reflexivity ].
  rewrite print_failure_eq. reflexivity.
Qed.

(** C7. The two forms of the collection-set assertion.  With an object,
    [assert_not_in_cset] first runs [assert_correct], whose report wins,
    and then dies at [_safe_all] with "Object should not be in collection
    set" exactly when the object is in the collection set.  With an
    interior location only, [assert_not_in_cset_loc] starts by asking for
    the collection-set membership of the location, dies exactly when it is
    a member, whatever [assert_correct] would say of the location, and no
    forwarding word is read during the call, report included. *)
Theorem assert_not_in_cset_two_forms vm il obj file line :
  verdict (assert_not_in_cset vm il obj file line) =
    match correct_verdict vm obj with
    | Some v => Some v
    | None =>
      if h_in_collection_set vm obj
      then Some (_safe_all, "Object should not be in collection set"%string)
      else None
    end /\
  verdict (assert_not_in_cset_loc vm il file line) =
    (if h_in_collection_set vm il
     then Some (_safe_unknown,
                "Interior location should not be in collection set"%string)
     else None) /\
  hd_error (reads (assert_not_in_cset_loc vm il file line)) =
    Some (R_in_collection_set il) /\
  (forall p, ~ In (R_get_raw_unchecked p)
               (reads (assert_not_in_cset_loc vm il file line))).
Proof.
  split; [ | rewrite assert_not_in_cset_loc_eq; repeat split ].
  - unfold assert_not_in_cset, in_collection_set.
    rewrite verdict_after_assert_correct.
    destruct (correct_verdict vm obj); [ reflexivity | ].
    rewrite verdict_bind_query.
    destruct (h_in_collection_set vm obj); now verdict_step.
  - destruct (h_in_collection_set vm il); reflexivity.
  - destruct (h_in_collection_set vm il); reflexivity.
  - intros p. destruct (h_in_collection_set vm il); cbn [reads fst].
    + intros [H | H]; [ discriminate H | ].
      now apply failure_reads_unknown_no_forwarding in H.
    + intros [H | []]. discriminate H.
Qed.

Lemma assert_not_in_cset_two_forms_witness :
  verdict (assert_not_in_cset vm_full_gc NULL 2048 "test.cpp" 4) =
    Some (_safe_all, "Object should not be in collection set"%string) /\
  verdict (assert_not_in_cset_loc vm_full_gc 512 "test.cpp" 4) =
    Some (_safe_unknown,
          "Interior location should not be in collection set"%string) /\
  ~ In (R_get_raw_unchecked 512)
       (reads (assert_not_in_cset_loc vm_full_gc 512 "test.cpp" 4)).
Proof.
  destruct (assert_not_in_cset_two_forms vm_full_gc NULL 2048 "test.cpp" 4)
    as (Ho & _).
  destruct (assert_not_in_cset_two_forms vm_full_gc 512 2048 "test.cpp" 4)
    as (_ & Hl & _ & Hn).
  split; [ rewrite Ho; reflexivity | ].
  split; [ rewrite Hl; reflexivity | apply Hn ].
Defined.

(** Scenario F of the specification, and the location form on the same
    heap: the location 512 is outside the heap, [assert_correct] rejects
    it, and the location form reports the collection set. *)
Example assert_not_in_cset_member :
  verdict (assert_not_in_cset vm_full_gc NULL 2048 "test.cpp" 4) =
    Some (_safe_all, "Object should not be in collection set"%string) /\
  verdict (assert_correct vm_full_gc 512 512 "test.cpp" 4) =
    Some (_safe_unknown, "oop must point to a heap address"%string) /\
  verdict (assert_not_in_cset_loc vm_full_gc 512 "test.cpp" 4) =
    Some (_safe_unknown,
          "Interior location should not be in collection set"%string).
Proof. vm_compute. repeat split. Qed.

(** ** The reference processor assertions *)

Lemma assert_rp_isalive_not_installed_eq vm file line :
  assert_rp_isalive_not_installed vm file line =
  if rp_is_alive_non_header vm =? NULL then ([R_is_alive_non_header], Ret tt)
  else
    ([R_is_alive_non_header; R_is_alive_non_header],
     Died {| err_file := file; err_line := line;
             err_message :=
               rp_message vm "Shenandoah assert_rp_isalive_not_installed failed"
                          (rp_is_alive_non_header vm) NULL |}).
Proof.
  unfold assert_rp_isalive_not_installed, is_alive_non_header, query. cbn.
  destruct (rp_is_alive_non_header vm =? NULL); reflexivity.
Qed.

Lemma assert_rp_isalive_installed_eq vm file line :
  assert_rp_isalive_installed vm file line =
  if rp_is_alive_non_header vm =? h_is_alive_closure vm
  then ([R_is_alive_non_header; R_is_alive_closure], Ret tt)
  else
    ([R_is_alive_non_header; R_is_alive_closure;
      R_is_alive_non_header; R_is_alive_closure],
     Died {| err_file := file; err_line := line;
             err_message :=
               rp_message vm "Shenandoah assert_rp_isalive_installed failed"
                          (rp_is_alive_non_header vm) (h_is_alive_closure vm) |}).
Proof.
  unfold assert_rp_isalive_installed, is_alive_non_header, is_alive_closure, query.
  cbn.
  destruct (rp_is_alive_non_header vm =? h_is_alive_closure vm); reflexivity.
Qed.

(** C8, as the code has it.  [assert_rp_isalive_not_installed] dies exactly
    when the closure of the reference processor is not [NULL], and
    [assert_rp_isalive_installed] exactly when it is not the closure of the
    heap; neither takes an object nor reads anything but the two closures.
    The report has five lines and no object or region in it: the label,
    the actual and the expected closure, and then the addresses of the
    heap's [_is_alive] and [_forwarded_is_alive] closures. *)
Theorem assert_rp_isalive_reports vm file line :
  (dies (assert_rp_isalive_not_installed vm file line) = true <->
   rp_is_alive_non_header vm <> NULL) /\
  (dies (assert_rp_isalive_installed vm file line) = true <->
   rp_is_alive_non_header vm <> h_is_alive_closure vm) /\
  (forall r, In r (reads (assert_rp_isalive_not_installed vm file line)) ->
             r = R_is_alive_non_header) /\
  (forall r, In r (reads (assert_rp_isalive_installed vm file line)) ->
             r = R_is_alive_non_header \/ r = R_is_alive_closure) /\
  (forall e, result (assert_rp_isalive_not_installed vm file line) = Died e ->
             err_message e =
               rp_message vm "Shenandoah assert_rp_isalive_not_installed failed"
                          (rp_is_alive_non_header vm) NULL /\
             pointers (err_message e) =
               [rp_is_alive_non_header vm; NULL;
                h_addr_is_alive vm; h_addr_forwarded_is_alive vm]) /\
  (forall e, result (assert_rp_isalive_installed vm file line) = Died e ->
             err_message e =
               rp_message vm "Shenandoah assert_rp_isalive_installed failed"
                          (rp_is_alive_non_header vm) (h_is_alive_closure vm) /\
             pointers (err_message e) =
               [rp_is_alive_non_header vm; h_is_alive_closure vm;
                h_addr_is_alive vm; h_addr_forwarded_is_alive vm]).
Proof.
  rewrite assert_rp_isalive_not_installed_eq, assert_rp_isalive_installed_eq.
  unfold dies, returns.
  destruct (Z.eqb_spec (rp_is_alive_non_header vm) NULL) as [e1 | n1];
    destruct (Z.eqb_spec (rp_is_alive_non_header vm) (h_is_alive_closure vm))
      as [e2 | n2];
    cbn [result reads fst snd negb];
    (split; [ split; intros H; first [ discriminate H | congruence ] | ]);
    (split; [ split; intros H; first [ discriminate H | congruence ] | ]);
    (split; [ intros r Hr; cbn in Hr; intuition congruence | ]);
    (split; [ intros r Hr; cbn in Hr; intuition congruence | ]);
    (split; intros e He; try discriminate He; injection He as <-;
     split; reflexivity).
Qed.

Lemma assert_rp_isalive_reports_witness :
  dies (assert_rp_isalive_not_installed vm_rp_stray "test.cpp" 5) = true /\
  dies (assert_rp_isalive_installed vm_rp_stray "test.cpp" 5) = true /\
  dies (assert_rp_isalive_installed vm_rp_installed "test.cpp" 5) = false.
Proof.
  destruct (assert_rp_isalive_reports vm_rp_stray "test.cpp" 5)
    as (Hn & Hi & _).
  destruct (assert_rp_isalive_reports vm_rp_installed "test.cpp" 5)
    as (_ & Hi' & _).
  split; [ apply Hn; discriminate | ].
  split; [ apply Hi; discriminate | ].
  destruct (dies (assert_rp_isalive_installed vm_rp_installed "test.cpp" 5)) eqn:Hd;
    [ | reflexivity ].
  exfalso. destruct Hi' as [Hi' _]. now apply Hi'.
Defined.

(** Scenario E of the specification: a closure is installed when none
    should be. *)
Example assert_rp_isalive_not_installed_stray :
  result (assert_rp_isalive_not_installed vm_rp_stray "test.cpp" 5) =
  Died {| err_file := "test.cpp"; err_line := 5;
          err_message :=
            rp_message vm_rp_stray
                       "Shenandoah assert_rp_isalive_not_installed failed"
                       777 NULL |}.
Proof. reflexivity. Qed.

(** The report does not stop at the actual and the expected closure. *)
Lemma rp_report_not_two_pointers :
  exists e,
    result (assert_rp_isalive_not_installed vm_rp_stray "test.cpp" 5) = Died e /\
    pointers (err_message e) = [777; NULL; 900; 908] /\
    pointers (err_message e) <> [777; NULL].
Proof.
  eexists. split; [ reflexivity | ].
  split; [ reflexivity | discriminate ].
Qed.

(** ** assert_in_correct_region *)

Lemma bind_assoc {E A B C} (m : M E A) (f : A -> M E B) (g : B -> M E C) :
  bind (bind m f) g = bind m (fun x => bind (f x) g).
Proof.
  destruct m as [t [a | e]]; cbn; [ | reflexivity ].
  destruct (f a) as [t1 [b | e]]; cbn; [ | reflexivity ].
  destruct (g b) as [t2 r]. now rewrite app_assoc.
Qed.

Lemma size_t_wrap_range x : 0 <= size_t_wrap x < size_t_modulus.
Proof. unfold size_t_wrap. apply Z.mod_pos_bound. reflexivity. Qed.

Lemma size_t_wrap_small x : 0 <= x < size_t_modulus -> size_t_wrap x = x.
Proof. unfold size_t_wrap. apply Z.mod_small. Qed.

(** The loop stops on its test, not on the fuel: from a position [i], the
    distance to the end of the span is fuel enough. *)
Lemma humongous_chain_fuel vm il obj file line idx n :
  forall fuel extra i,
    0 <= i -> size_t_wrap (idx + n) - i <= Z.of_nat fuel ->
    humongous_chain vm (fuel + extra) il obj file line idx n i =
    humongous_chain vm fuel il obj file line idx n i.
Proof.
  induction fuel as [ | fuel IH]; intros extra i Hi Hfuel.
  - destruct extra as [ | extra]; [ reflexivity | ].
    cbn [Nat.add humongous_chain].
    destruct (Z.ltb_spec i (size_t_wrap (idx + n))); [ lia | reflexivity ].
  - cbn [Nat.add humongous_chain].
    destruct (Z.ltb_spec i (size_t_wrap (idx + n))) as [Hlt | Hge];
      [ | reflexivity ].
    assert (Hnext : size_t_wrap (i + 1) = i + 1).
    { apply size_t_wrap_small.
      pose proof (size_t_wrap_range (idx + n)). lia. }
    rewrite Hnext, IH by lia. reflexivity.
Qed.

Lemma humongous_chain_cases vm il obj file line idx n :
  forall fuel i,
    0 <= i -> idx <= i -> size_t_wrap (idx + n) - i <= Z.of_nat fuel ->
    let m := humongous_chain vm fuel il obj file line idx n i in
    let last := size_t_wrap (idx + n) in
    (verdict m = None /\
     forall j, i <= j < last ->
       (j = idx -> r_is_humongous_start vm (h_regions_get vm j) = true) /\
       (j <> idx -> r_is_humongous_continuation vm (h_regions_get vm j) = true))
    \/
    (verdict m = Some (_safe_unknown, "Object must reside in humongous start"%string) /\
     i = idx /\ idx < last /\
     r_is_humongous_start vm (h_regions_get vm idx) = false)
    \/
    (verdict m =
       Some (_safe_oop, "Humongous continuation should be of proper size"%string) /\
     (i = idx -> r_is_humongous_start vm (h_regions_get vm idx) = true) /\
     exists j, i <= j < last /\ j <> idx /\
               r_is_humongous_continuation vm (h_regions_get vm j) = false).
Proof.
  intros fuel. induction fuel as [ | fuel IH]; intros i Hi0 Hi Hfuel m last.
  - left. split; [ reflexivity | ].
    intros j Hj. subst last. lia.
  - subst m. cbn [humongous_chain]. fold last.
    destruct (Z.ltb_spec i last) as [Hlt | Hge].
    2:{ left. split; [ reflexivity | intros j Hj; lia ]. }
    assert (Hnext : size_t_wrap (i + 1) = i + 1).
    { apply size_t_wrap_small.
      pose proof (size_t_wrap_range (idx + n)). fold last in H. lia. }
    rewrite Hnext.
    assert (Hfuel' : size_t_wrap (idx + n) - (i + 1) <= Z.of_nat fuel) by lia.
    specialize (IH (i + 1) ltac:(lia) ltac:(lia) Hfuel').
    cbn zeta in IH. fold last in IH.
    unfold regions_get, is_humongous_start, is_humongous_continuation.
    rewrite verdict_bind_query.
    destruct (Z.eqb_spec i idx) as [e | ne]; cbn [negb].
    + subst i. rewrite !bind_assoc, verdict_bind_query.
      destruct (r_is_humongous_start vm (h_regions_get vm idx)) eqn:Hs; cbn [negb].
      * rewrite !verdict_bind_ret.
        destruct IH as [[Hv Hall] | [[Hv [Habs _]] | [Hv [_ Hex]]]].
        -- left. split; [ exact Hv | ].
           intros j Hj. destruct (Z.eq_dec j idx) as [-> | nj].
           ++ split; [ intros _; first [ exact Hs | reflexivity ] | intros H; now elim H ].
           ++ apply Hall. lia.
        -- lia.
        -- right. right. split; [ exact Hv | ].
           split; [ intros _; first [ exact Hs | reflexivity ] | ].
           destruct Hex as (j & Hj & Hne & Hc). exists j.
           split; [ lia | split; assumption ].
      * rewrite verdict_bind_print_failure.
        right. left. repeat split; first [ assumption | reflexivity ].
    + rewrite verdict_bind_ret, !bind_assoc, verdict_bind_query.
      destruct (r_is_humongous_continuation vm (h_regions_get vm i)) eqn:Hc;
        cbn [negb].
      * rewrite verdict_bind_ret.
        destruct IH as [[Hv Hall] | [[Hv [Habs _]] | [Hv [_ Hex]]]].
        -- left. split; [ exact Hv | ].
           intros j Hj. destruct (Z.eq_dec j i) as [-> | nj].
           ++ split; [ intros H; now elim ne | intros _; first [ exact Hc | reflexivity ] ].
           ++ apply Hall. lia.
        -- lia.
        -- right. right. split; [ exact Hv | ].
           split; [ intros H; now elim ne | ].
           destruct Hex as (j & Hj & Hne & Hcj). exists j.
           split; [ lia | split; assumption ].
      * rewrite verdict_bind_print_failure.
        right. right. split; [ reflexivity | ].
        split; [ intros H; now elim ne | ].
        exists i. split; [ lia | split; first [ assumption | reflexivity ] ].
Qed.

Lemma assert_in_correct_region_cases vm il obj file line :
  correct_verdict vm obj = None ->
  0 <= span_first vm obj ->
  let m := assert_in_correct_region vm il obj file line in
  let first := span_first vm obj in
  let last := span_end vm obj in
  (r_is_active vm (h_heap_region_containing vm obj) = false /\
   verdict m = Some (_safe_unknown, "Object must reside in active region"%string))
  \/
  (r_is_active vm (h_heap_region_containing vm obj) = true /\
   is_humongous vm obj = false /\ verdict m = None)
  \/
  (r_is_active vm (h_heap_region_containing vm obj) = true /\
   is_humongous vm obj = true /\
   ((verdict m = None /\ chain_flagged vm first last)
    \/
    (verdict m = Some (_safe_unknown, "Object must reside in humongous start"%string) /\
     start_flag_missing vm first last)
    \/
    (verdict m =
       Some (_safe_oop, "Humongous continuation should be of proper size"%string) /\
     ~ start_flag_missing vm first last /\
     continuation_flag_missing vm first last))).
Proof.
  intros Hc H0 m first last. subst m first last.
  unfold assert_in_correct_region, heap_region_containing, is_active, size,
    region_number.
  rewrite verdict_after_assert_correct, Hc.
  rewrite !verdict_bind_query.
  destruct (r_is_active vm (h_heap_region_containing vm obj)) eqn:Ha; cbn [negb].
  2:{ left. split; [ reflexivity | now rewrite verdict_bind_print_failure ]. }
  right. rewrite verdict_bind_ret, verdict_bind_query.
  fold (alloc_size vm obj). fold (is_humongous vm obj).
  destruct (is_humongous vm obj) eqn:Hh.
  2:{ left. repeat split. }
  right. split; [ reflexivity | split; [ reflexivity | ] ].
  rewrite verdict_bind_query.
  fold (span_first vm obj). fold (span_regions vm obj).
  unfold span_end.
  pose proof (humongous_chain_cases vm il obj file line (span_first vm obj)
                (span_regions vm obj)
                (Z.to_nat (size_t_wrap (span_first vm obj + span_regions vm obj)
                           - span_first vm obj))
                (span_first vm obj) H0 (Z.le_refl _) ltac:(lia)) as Hcases.
  cbn zeta in Hcases.
  destruct Hcases as [[Hv Hall] | [[Hv (_ & Hlt & Hs)] | [Hv [Hs Hex]]]].
  - left. split; [ exact Hv | exact Hall ].
  - right. left. split; [ exact Hv | split; assumption ].
  - right. right. split; [ exact Hv | split ].
    + intros [_ Hs']. rewrite (Hs eq_refl) in Hs'. discriminate Hs'.
    + destruct Hex as (j & Hj & Hne & Hcj). exists j. split; [ lia | exact Hcj ].
Qed.

(** C5. For an object that passes [assert_correct] (region numbers being
    [size_t] values), [assert_in_correct_region] returns exactly when the
    region of the object is active and, if the allocation size is above
    the humongous threshold, the first region of the span is a humongous
    start and every later region of the span a humongous continuation.
    An inactive region, a missing start flag and a missing continuation
    flag each have their own message; the last one is "Humongous
    continuation should be of proper size". *)
Theorem assert_in_correct_region_iff vm il obj file line :
  returns (assert_correct vm il obj file line) = true ->
  0 <= span_first vm obj ->
  let m := assert_in_correct_region vm il obj file line in
  let active := r_is_active vm (h_heap_region_containing vm obj) in
  let first := span_first vm obj in
  let last := span_end vm obj in
  (returns m = true <->
   active = true /\ (is_humongous vm obj = true -> chain_flagged vm first last)) /\
  (active = false ->
   verdict m = Some (_safe_unknown, "Object must reside in active region"%string)) /\
  (active = true -> is_humongous vm obj = true ->
   start_flag_missing vm first last ->
   verdict m = Some (_safe_unknown, "Object must reside in humongous start"%string)) /\
  (active = true -> is_humongous vm obj = true ->
   ~ start_flag_missing vm first last ->
   continuation_flag_missing vm first last ->
   verdict m =
     Some (_safe_oop, "Humongous continuation should be of proper size"%string)).
Proof.
  intros Hc H0 m active first last. subst m active first last.
  apply correct_verdict_returns in Hc.
  pose proof (assert_in_correct_region_cases vm il obj file line Hc H0) as Hcases.
  cbn zeta in Hcases.
  set (m := assert_in_correct_region vm il obj file line) in *.
  set (first := span_first vm obj) in *.
  set (last := span_end vm obj) in *.
  assert (Hflag : chain_flagged vm first last ->
                  ~ start_flag_missing vm first last /\
                  ~ continuation_flag_missing vm first last).
  { intros Hall. split.
    - intros [Hlt Hs]. destruct (Hall first ltac:(lia)) as [H _].
      rewrite (H eq_refl) in Hs. discriminate Hs.
    - intros (j & Hj & Hcj). destruct (Hall j ltac:(lia)) as [_ H].
      rewrite (H ltac:(lia)) in Hcj. discriminate Hcj. }
  assert (Hret : returns m = true <-> verdict m = None)
    by (symmetry; apply verdict_none_returns).
  destruct Hcases
    as [[Ha Hv] | [(Ha & Hh & Hv)
                  | (Ha & Hh & [[Hv Hall] | [[Hv Hs] | (Hv & Hs & Hk)]])]];
    rewrite Hret, Hv, Ha, ?Hh.
  - split; [ split; [ discriminate | intros [H _]; discriminate H ] | ].
    repeat split; intros; congruence.
  - split; [ split; [ intros _; split; [ reflexivity | discriminate ]
                    | reflexivity ] | ].
    repeat split; intros; congruence.
  - destruct (Hflag Hall) as [Hns Hnk].
    split; [ split; [ intros _; split; [ reflexivity | intros _; exact Hall ]
                    | reflexivity ] | ].
    split; [ discriminate | ].
    split; [ intros _ _ H; now elim Hns | intros _ _ _ H; now elim Hnk ].
  - split; [ split; [ discriminate | ] | ].
    + intros [_ Hall]. destruct (Hflag (Hall eq_refl)) as [Hns _]. now elim Hns.
    + split; [ discriminate | ].
      split; [ reflexivity | intros _ _ H; now elim H ].
  - split; [ split; [ discriminate | ] | ].
    + intros [_ Hall]. destruct (Hflag (Hall eq_refl)) as [_ Hnk]. now elim Hnk.
    + split; [ discriminate | ].
      split; [ intros _ _ H; now elim Hs | reflexivity ].
Qed.

(** Scenario D of the specification, through the theorem: a humongous
    object over three regions, the last of which lacks the continuation
    flag. *)
Lemma assert_in_correct_region_iff_witness :
  returns (assert_correct vm_humongous_short NULL 2048 "test.cpp" 9) = true /\
  span_regions vm_humongous_short 2048 = 3 /\
  verdict (assert_in_correct_region vm_humongous_short NULL 2048 "test.cpp" 9) =
    Some (_safe_oop, "Humongous continuation should be of proper size"%string).
Proof.
  assert (Hc : returns (assert_correct vm_humongous_short NULL 2048 "test.cpp" 9)
               = true) by reflexivity.
  assert (H0 : 0 <= span_first vm_humongous_short 2048) by (vm_compute; discriminate).
  split; [ exact Hc | split; [ reflexivity | ] ].
  destruct (assert_in_correct_region_iff vm_humongous_short NULL 2048 "test.cpp" 9
              Hc H0) as (_ & _ & _ & Hk).
  apply Hk.
  - reflexivity.
  - reflexivity.
  - intros [_ Hs]. discriminate Hs.
  - exists 4. split; [ vm_compute; split; reflexivity | reflexivity ].
Defined.

Example assert_in_correct_region_humongous_ok :
  assert_in_correct_region vm_humongous_ok NULL 2048 "test.cpp" 9 =
  ([R_is_in 2048; R_get_raw_unchecked 2048; R_is_in 2048;
    R_heap_region_containing 2048; R_is_active 100002; R_size 2048;
    R_region_number 100002;
    R_regions_get 2; R_is_humongous_start 100002;
    R_regions_get 3; R_is_humongous_continuation 100003;
    R_regions_get 4; R_is_humongous_continuation 100004], Ret tt).
Proof. vm_compute. reflexivity. Qed.

(** After [assert_correct] has returned, an inactive region is still
    reported at [_safe_unknown], below [_safe_oop]. *)
Lemma in_correct_region_below_safe_oop :
  returns (assert_correct vm_inactive NULL 2048 "test.cpp" 11) = true /\
  verdict (assert_in_correct_region vm_inactive NULL 2048 "test.cpp" 11) =
    Some (_safe_unknown, "Object must reside in active region"%string) /\
  level_ge _safe_unknown _safe_oop = false.
Proof. vm_compute. repeat split. Qed.

(** C6, as the code has it.  When [assert_in_correct_region] reports after
    [assert_correct] has returned, the level is the one written at the call:
    [_safe_unknown] for an inactive region and for a missing humongous
    start flag, [_safe_oop] for a missing continuation flag. *)
Theorem assert_in_correct_region_levels vm il obj file line level label :
  returns (assert_correct vm il obj file line) = true ->
  0 <= span_first vm obj ->
  verdict (assert_in_correct_region vm il obj file line) = Some (level, label) ->
  (label = "Object must reside in active region"%string /\
   level = _safe_unknown /\
   r_is_active vm (h_heap_region_containing vm obj) = false)
  \/
  (label = "Object must reside in humongous start"%string /\
   level = _safe_unknown /\
   r_is_active vm (h_heap_region_containing vm obj) = true /\
   is_humongous vm obj = true /\
   start_flag_missing vm (span_first vm obj) (span_end vm obj))
  \/
  (label = "Humongous continuation should be of proper size"%string /\
   level = _safe_oop /\
   r_is_active vm (h_heap_region_containing vm obj) = true /\
   is_humongous vm obj = true /\
   continuation_flag_missing vm (span_first vm obj) (span_end vm obj)).
Proof.
  intros Hc H0 Hv.
  apply correct_verdict_returns in Hc.
  pose proof (assert_in_correct_region_cases vm il obj file line Hc H0) as Hcases.
  cbn zeta in Hcases.
  destruct Hcases
    as [[Ha Hv'] | [(Ha & Hh & Hv')
                   | (Ha & Hh & [[Hv' Hall] | [[Hv' Hs] | (Hv' & Hs & Hk)]])]];
    rewrite Hv' in Hv; try discriminate Hv; injection Hv as <- <-.
  - left. repeat split; assumption.
  - right. left. repeat split; try assumption; apply Hs.
  - right. right. repeat split; assumption.
Qed.

Lemma assert_in_correct_region_levels_witness :
  returns (assert_correct vm_inactive NULL 2048 "test.cpp" 11) = true /\
  0 <= span_first vm_inactive 2048 /\
  verdict (assert_in_correct_region vm_inactive NULL 2048 "test.cpp" 11) =
    Some (_safe_unknown, "Object must reside in active region"%string) /\
  r_is_active vm_inactive (h_heap_region_containing vm_inactive 2048) = false.
Proof.
  assert (Hc : returns (assert_correct vm_inactive NULL 2048 "test.cpp" 11) = true)
    by reflexivity.
  assert (H0 : 0 <= span_first vm_inactive 2048) by (vm_compute; discriminate).
  assert (Hv : verdict (assert_in_correct_region vm_inactive NULL 2048 "test.cpp" 11)
               = Some (_safe_unknown, "Object must reside in active region"%string))
    by reflexivity.
  split; [ exact Hc | split; [ exact H0 | split; [ exact Hv | ] ] ].
  destruct (assert_in_correct_region_levels vm_inactive NULL 2048 "test.cpp" 11
              _ _ Hc H0 Hv)
    as [(_ & _ & Ha) | [(Hl & _) | (Hl & _)]];
    [ exact Ha | discriminate Hl | discriminate Hl ].
Defined.

(** ** The sections of a report *)

Ltac in_list :=
  cbn; unfold reads_klass, reads_mark_state, literal; cbn;
  repeat split; unfold not; intros;
  repeat match goal with
         | H : _ /\ _ |- _ => destruct H
         | H : _ \/ _ |- _ => destruct H
         | H : False |- _ => destruct H
         | H : @eq read _ _ |- _ => first [ discriminate H | injection H as H ]
         | H : @eq appended _ _ |- _ => discriminate H
         | H : @eq bool _ _ |- _ => discriminate H
         end;
  try congruence; auto 12.

Lemma object_section_reads vm level obj :
  (reads_klass obj (reads (object_section vm level obj)) \/
   reads_mark_state obj (reads (object_section vm level obj))) <->
  level_ge level _safe_oop = true.
Proof.
  unfold_sections. unfold_printers.
  destruct level; split_ifs; in_list.
Qed.

Lemma object_section_minimal vm level obj :
  level_ge level _safe_oop = false ->
  printed (object_section vm level obj) =
    literal ("Object:" ++ nl) :: minimal_detail vm obj ++ [literal nl] /\
  forall p, ~ reads_klass p (reads (object_section vm level obj)) /\
            ~ reads_mark_state p (reads (object_section vm level obj)).
Proof.
  unfold minimal_detail. unfold_sections. unfold_printers.
  destruct level; try discriminate; intros _.
  split_ifs; (split; [ reflexivity | in_list ]).
Qed.

Lemma object_section_full vm level obj :
  level_ge level _safe_oop = true ->
  printed (object_section vm level obj) =
    literal ("Object:" ++ nl) :: full_detail vm obj ++ [literal nl].
Proof.
  unfold full_detail. unfold_sections. unfold_printers.
  destruct level; try discriminate; intros _; reflexivity.
Qed.

Lemma forwardee_section_header vm level obj :
  In (literal ("Forwardee:" ++ nl)) (printed (forwardee_section vm level obj)) <->
  level_ge level _safe_oop = true.
Proof.
  unfold_sections. unfold_printers.
  destruct level; split_ifs; in_list.
Qed.

Lemma forwardee_section_self vm level obj :
  level_ge level _safe_oop = true ->
  bp_get_raw_unchecked vm obj = obj ->
  printed (forwardee_section vm level obj) =
  [literal ("Forwardee:" ++ nl); literal "  (the object itself)"; literal nl].
Proof.
  unfold_sections. unfold_printers. intros Hl Hf.
  destruct level; try discriminate; cbn; rewrite Hf, Z.eqb_refl; reflexivity.
Qed.

Lemma forwardee_section_other vm level obj :
  level_ge level _safe_oop = true ->
  bp_get_raw_unchecked vm obj <> obj ->
  printed (forwardee_section vm level obj) =
    literal ("Forwardee:" ++ nl)
    :: (if level_ge level _safe_oop_fwd
        then full_detail vm (bp_get_raw_unchecked vm obj)
        else minimal_detail vm (bp_get_raw_unchecked vm obj))
    ++ [literal nl] /\
  (reads_klass (bp_get_raw_unchecked vm obj)
               (reads (forwardee_section vm level obj)) <->
   level_ge level _safe_oop_fwd = true).
Proof.
  unfold full_detail, minimal_detail. unfold_sections. unfold_printers.
  intros Hl Hne.
  assert (He : (obj =? bp_get_raw_unchecked vm obj) = false)
    by (apply Z.eqb_neq; congruence).
  destruct level; try discriminate; cbn; rewrite He;
    split_ifs; (split; [ reflexivity | in_list ]).
Qed.

Lemma second_forwardee_section_header vm level obj :
  In (literal ("Second forwardee:" ++ nl))
     (printed (second_forwardee_section vm level obj)) <->
  level_ge level _safe_oop_fwd = true /\
  bp_get_raw_unchecked vm (bp_get_raw_unchecked vm obj) <>
  bp_get_raw_unchecked vm obj.
Proof.
  unfold_sections. unfold_printers.
  destruct level; cbn;
    destruct (Z.eqb_spec (bp_get_raw_unchecked vm obj)
                         (bp_get_raw_unchecked vm (bp_get_raw_unchecked vm obj)));
    split_ifs; in_list.
Qed.

Lemma second_forwardee_section_minimal vm level obj :
  level_ge level _safe_oop_fwd = true ->
  bp_get_raw_unchecked vm (bp_get_raw_unchecked vm obj) <>
  bp_get_raw_unchecked vm obj ->
  printed (second_forwardee_section vm level obj) =
    literal ("Second forwardee:" ++ nl)
    :: minimal_detail vm (bp_get_raw_unchecked vm (bp_get_raw_unchecked vm obj))
    ++ [literal nl] /\
  forall p, ~ reads_klass p (reads (second_forwardee_section vm level obj)) /\
            ~ reads_mark_state p (reads (second_forwardee_section vm level obj)).
Proof.
  unfold minimal_detail. unfold_sections. unfold_printers.
  intros Hl Hne.
  assert (He : (bp_get_raw_unchecked vm obj
                =? bp_get_raw_unchecked vm (bp_get_raw_unchecked vm obj)) = false)
    by (apply Z.eqb_neq; congruence).
  destruct level; try discriminate; cbn; rewrite He;
    split_ifs; (split; [ reflexivity | in_list ]).
Qed.

Lemma message_print_failure {A} vm level obj il loc phase label file line :
  message (@print_failure vm A level obj il loc phase label file line) =
  failure_message vm level obj il loc phase label.
Proof. rewrite print_failure_eq. reflexivity. Qed.

Lemma reads_print_failure {A} vm level obj il loc phase label file line :
  reads (@print_failure vm A level obj il loc phase label file line) =
  failure_reads vm level obj il loc.
Proof. rewrite print_failure_eq. reflexivity. Qed.

(** C3. The report of [print_failure] is its header followed by the
    sections "Referenced from", "Object", "Forwardee", "Second forwardee"
    and "Matrix connections", and in it:
    - the "Object" section reads the type descriptor or the mark state of
      the object exactly when the level is at least [_safe_oop]; below, it
      prints the address and, when the address is in the heap and has a
      region, the summary of the region, and reads no type descriptor and
      no mark state;
    - the "Forwardee" section is there exactly when the level is at least
      [_safe_oop]; it says "(the object itself)" when the forwarding word
      points to the object, and otherwise prints the forwardee with its
      details when the level is at least [_safe_oop_fwd], and by its
      address when it is not;
    - the "Second forwardee" section is there exactly when the level is at
      least [_safe_oop_fwd] and the forwardee is forwarded again, and it
      prints the second forwardee by its address. *)
Theorem print_failure_sections_by_level vm level obj il loc phase label file line :
  let fwd := bp_get_raw_unchecked vm obj in
  let fwd2 := bp_get_raw_unchecked vm fwd in
  message (@print_failure vm unit level obj il loc phase label file line) =
    failure_header phase label
    :: printed (referenced_from_section vm il loc)
    ++ printed (object_section vm level obj)
    ++ printed (forwardee_section vm level obj)
    ++ printed (second_forwardee_section vm level obj)
    ++ printed (matrix_connections_section vm level obj il loc) /\
  ((reads_klass obj (reads (object_section vm level obj)) \/
    reads_mark_state obj (reads (object_section vm level obj))) <->
   level_ge level _safe_oop = true) /\
  (level_ge level _safe_oop = false ->
   printed (object_section vm level obj) =
     literal ("Object:" ++ nl) :: minimal_detail vm obj ++ [literal nl] /\
   forall p, ~ reads_klass p (reads (object_section vm level obj)) /\
             ~ reads_mark_state p (reads (object_section vm level obj))) /\
  (In (literal ("Forwardee:" ++ nl)) (printed (forwardee_section vm level obj)) <->
   level_ge level _safe_oop = true) /\
  (level_ge level _safe_oop = true -> fwd = obj ->
   printed (forwardee_section vm level obj) =
   [literal ("Forwardee:" ++ nl); literal "  (the object itself)"; literal nl]) /\
  (level_ge level _safe_oop = true -> fwd <> obj ->
   printed (forwardee_section vm level obj) =
     literal ("Forwardee:" ++ nl)
     :: (if level_ge level _safe_oop_fwd
         then full_detail vm fwd else minimal_detail vm fwd)
     ++ [literal nl] /\
   (reads_klass fwd (reads (forwardee_section vm level obj)) <->
    level_ge level _safe_oop_fwd = true)) /\
  (In (literal ("Second forwardee:" ++ nl))
      (printed (second_forwardee_section vm level obj)) <->
   level_ge level _safe_oop_fwd = true /\ fwd2 <> fwd) /\
  (level_ge level _safe_oop_fwd = true -> fwd2 <> fwd ->
   printed (second_forwardee_section vm level obj) =
     literal ("Second forwardee:" ++ nl) :: minimal_detail vm fwd2 ++ [literal nl] /\
   forall p, ~ reads_klass p (reads (second_forwardee_section vm level obj)) /\
             ~ reads_mark_state p (reads (second_forwardee_section vm level obj))).
Proof.
  intros fwd fwd2. subst fwd fwd2.
  split; [ apply message_print_failure | ].
  split; [ apply object_section_reads | ].
  split; [ apply object_section_minimal | ].
  split; [ apply forwardee_section_header | ].
  split; [ apply forwardee_section_self | ].
  split; [ apply forwardee_section_other | ].
  split; [ apply second_forwardee_section_header
         | apply second_forwardee_section_minimal ].
Qed.

(** An object forwarded twice, reported at [_safe_oop_fwd]: the forwardee
    with its details, the second forwardee by its address. *)
Lemma print_failure_sections_by_level_witness :
  printed (forwardee_section vm_twice_forwarded _safe_oop_fwd 2048) =
    literal ("Forwardee:" ++ nl) :: full_detail vm_twice_forwarded 4096
    ++ [literal nl] /\
  printed (second_forwardee_section vm_twice_forwarded _safe_oop_fwd 2048) =
    [ literal ("Second forwardee:" ++ nl);
      Append ("  " ++ PTR_FORMAT ++ " - safe print, no details" ++ nl) [A_ptr 6144];
      Append "  region: %s" [A_str "|region|"];
      literal nl ].
Proof.
  destruct (print_failure_sections_by_level vm_twice_forwarded _safe_oop_fwd 2048
              NULL NULL "phase" "label" "test.cpp" 13)
    as (_ & _ & _ & _ & _ & Hf & _ & Hs).
  split.
  - apply Hf; [ reflexivity | discriminate ].
  - apply Hs; [ reflexivity | discriminate ].
Defined.

(** ** The "Referenced from" section *)

Lemma referenced_from_section_loc vm il loc :
  il <> NULL ->
  in_heap vm loc = true ->
  referenced_from_section vm il loc =
  (reads (@print_obj failure vm [] loc),
   Ret (literal ("Referenced from:" ++ nl)
        :: Append ("  interior location: " ++ PTR_FORMAT ++ nl) [A_ptr il]
        :: full_detail vm loc ++ [literal nl])).
Proof.
  intros Hil Hloc.
  unfold referenced_from_section, pf_referenced_from, full_detail.
  rewrite Hloc.
  apply Z.eqb_neq in Hil. rewrite Hil. cbn [negb].
  unfold print_obj, append. reflexivity.
Qed.

Lemma print_obj_reads vm obj :
  reads (@print_obj failure vm [] obj) =
  [ R_heap_region_containing obj; R_print_on (h_heap_region_containing vm obj);
    R_klass obj; R_klass obj; R_external_name (o_klass vm obj);
    R_allocated_after_complete_mark_start obj;
    R_allocated_after_next_mark_start obj;
    R_is_marked_complete obj; R_is_marked_next obj; R_in_collection_set obj ].
Proof. reflexivity. Qed.

(** At [_safe_unknown], the object at the referring location is printed
    with its details all the same. *)
Lemma referenced_from_not_gated :
  in_heap vm_quiet 2048 = true /\
  reads_klass 2048
    (reads (@print_failure vm_quiet unit _safe_unknown 4096 2056 2048
              "phase" "label" "test.cpp" 15)) /\
  reads_mark_state 2048
    (reads (@print_failure vm_quiet unit _safe_unknown 4096 2056 2048
              "phase" "label" "test.cpp" 15)) /\
  level_ge _safe_unknown _safe_oop = false.
Proof.
  split; [ reflexivity | ].
  split; [ | split; [ left | reflexivity ] ];
    vm_compute; auto 20.
Qed.

(** C2, as the code has it.  When an interior location is known and the
    referring location is not [NULL] and lies in the heap, the "Referenced
    from" section prints the object at the referring location with its
    details, and [print_failure] reads its type descriptor and its two
    mark bits, at every level, [_safe_unknown] included: this block is
    guarded by the heap membership of the referring location and not by
    the level. *)
Theorem referenced_from_full_detail vm level obj il loc phase label file line :
  il <> NULL ->
  in_heap vm loc = true ->
  printed (referenced_from_section vm il loc) =
    literal ("Referenced from:" ++ nl)
    :: Append ("  interior location: " ++ PTR_FORMAT ++ nl) [A_ptr il]
    :: full_detail vm loc ++ [literal nl] /\
  reads_klass loc
    (reads (@print_failure vm unit level obj il loc phase label file line)) /\
  In (R_is_marked_complete loc)
    (reads (@print_failure vm unit level obj il loc phase label file line)) /\
  In (R_is_marked_next loc)
    (reads (@print_failure vm unit level obj il loc phase label file line)).
Proof.
  intros Hil Hloc.
  pose proof (referenced_from_section_loc vm il loc Hil Hloc) as Heq.
  split; [ unfold printed; now rewrite Heq | ].
  rewrite reads_print_failure. unfold failure_reads, reads_klass.
  rewrite Heq. cbn [reads fst]. fold (reads (@print_obj failure vm [] loc)).
  rewrite print_obj_reads.
  repeat split; do 2 (apply in_or_app; right); apply in_or_app; left;
    cbn; auto 12.
Qed.

Lemma referenced_from_full_detail_witness :
  2056 <> NULL /\
  in_heap vm_quiet 2048 = true /\
  reads_klass 2048
    (reads (@print_failure vm_quiet unit _safe_unknown 4096 2056 2048
              "phase" "label" "test.cpp" 15)).
Proof.
  assert (Hil : 2056 <> NULL) by discriminate.
  assert (Hloc : in_heap vm_quiet 2048 = true) by reflexivity.
  split; [ exact Hil | split; [ exact Hloc | ] ].
  apply (referenced_from_full_detail vm_quiet _safe_unknown 4096 2056 2048
           "phase" "label" "test.cpp" 15 Hil Hloc).
Defined.

(** ** The "Matrix connections" section *)

Lemma level_eq_spec a b : level_eq a b = true <-> a = b.
Proof. destruct a, b; cbn; split; intro H; congruence. Qed.

Lemma matrix_connections_section_eq vm level obj il loc :
  printed (matrix_connections_section vm level obj il loc) =
  if in_heap vm loc && g_UseShenandoahMatrix vm && level_eq level _safe_all
  then literal ("Matrix connections:" ++ nl)
       :: matrix_four_pairs vm obj loc
       ++ (if in_heap vm il then matrix_interior_pairs vm obj il else [])
  else [].
Proof.
  unfold matrix_connections_section, pf_matrix_connections.
  destruct (in_heap vm loc && g_UseShenandoahMatrix vm && level_eq level _safe_all);
    [ | reflexivity ].
  destruct (in_heap vm il); reflexivity.
Qed.

(** The header of the section is printed by no other section. *)
Lemma matrix_header_elsewhere vm level obj il loc phase label :
  ~ In (literal ("Matrix connections:" ++ nl))
       (failure_header phase label
        :: printed (referenced_from_section vm il loc)
        ++ printed (object_section vm level obj)
        ++ printed (forwardee_section vm level obj)
        ++ printed (second_forwardee_section vm level obj)).
Proof.
  intros [H | H]; [ discriminate H | ].
  repeat (apply in_app_or in H; destruct H as [H | H]); revert H;
    unfold_sections; unfold_printers; try destruct level; split_ifs; in_list.
Qed.

(** The interior location is in the heap, the matrix is in use and the
    level is [_safe_all], but no referring location is given: the report
    has no "Matrix connections" section. *)
Lemma matrix_needs_referring_location :
  in_heap vm_matrix 2056 = true /\
  g_UseShenandoahMatrix vm_matrix = true /\
  ~ In (literal ("Matrix connections:" ++ nl))
       (message (@print_failure vm_matrix unit _safe_all 2048 2056 NULL
                   "phase" "label" "test.cpp" 17)).
Proof.
  split; [ reflexivity | split; [ reflexivity | ] ].
  vm_compute. intros H.
  repeat (destruct H as [H | H]; [ discriminate H | ]). exact H.
Qed.

(** C4, as the code has it.  The "Matrix connections" section is in the
    report exactly when the referring location is not [NULL] and lies in the
    heap, the connection matrix is in use and the level is [_safe_all].  It
    then has its header, the four pairs {referring location, its forwardee}
    x {object, its forwardee}, and the two pairs of the interior location
    exactly when the interior location is not [NULL] and lies in the heap
    too; it is the last section of the report. *)
Theorem matrix_connections_emitted vm level obj il loc phase label file line :
  (In (literal ("Matrix connections:" ++ nl))
      (message (@print_failure vm unit level obj il loc phase label file line)) <->
   in_heap vm loc = true /\ g_UseShenandoahMatrix vm = true /\ level = _safe_all) /\
  (in_heap vm loc = true -> g_UseShenandoahMatrix vm = true -> level = _safe_all ->
   exists before,
     message (@print_failure vm unit level obj il loc phase label file line) =
     before
     ++ literal ("Matrix connections:" ++ nl)
     :: matrix_four_pairs vm obj loc
     ++ (if in_heap vm il then matrix_interior_pairs vm obj il else [])).
Proof.
  rewrite message_print_failure. unfold failure_message.
  pose proof (matrix_header_elsewhere vm level obj il loc phase label) as Hno.
  pose proof (matrix_connections_section_eq vm level obj il loc) as Hm.
  set (last_section := printed (matrix_connections_section vm level obj il loc)) in *.
  set (before := failure_header phase label
                 :: printed (referenced_from_section vm il loc)
                 ++ printed (object_section vm level obj)
                 ++ printed (forwardee_section vm level obj)
                 ++ printed (second_forwardee_section vm level obj)) in *.
  assert (Hsplit :
            failure_header phase label
            :: printed (referenced_from_section vm il loc)
            ++ printed (object_section vm level obj)
            ++ printed (forwardee_section vm level obj)
            ++ printed (second_forwardee_section vm level obj)
            ++ last_section = before ++ last_section).
  { subst before. cbn [app]. now rewrite <- !app_assoc. }
  rewrite Hsplit. clear Hsplit.
  split; [ split | ].
  - intros Hin. apply in_app_or in Hin. destruct Hin as [Hin | Hin];
      [ now elim Hno | ].
    rewrite Hm in Hin.
    destruct (in_heap vm loc); [ | destruct Hin ].
    destruct (g_UseShenandoahMatrix vm); [ | destruct Hin ].
    destruct (level_eq level _safe_all) eqn:Hl; [ | destruct Hin ].
    apply level_eq_spec in Hl. auto.
  - intros (Hloc & Hmx & Hl). apply level_eq_spec in Hl.
    rewrite Hm, Hloc, Hmx, Hl. cbn [andb].
    apply in_or_app. right. left. reflexivity.
  - intros Hloc Hmx Hl. apply level_eq_spec in Hl.
    rewrite Hm, Hloc, Hmx, Hl. cbn [andb].
    exists before. reflexivity.
Qed.

Lemma matrix_connections_emitted_witness :
  in_heap vm_matrix 4096 = true /\
  g_UseShenandoahMatrix vm_matrix = true /\
  exists before,
    message (@print_failure vm_matrix unit _safe_all 2048 2056 4096
               "phase" "label" "test.cpp" 17) =
    before
    ++ [ literal ("Matrix connections:" ++ nl);
         connected_line "reference and object" false;
         connected_line "fwd(reference) and object" false;
         connected_line "reference and fwd(object)" false;
         connected_line "fwd(reference) and fwd(object)" false;
         connected_line "interior-reference and object" false;
         connected_line "interior-reference and fwd(object)" true ].
Proof.
  assert (Hloc : in_heap vm_matrix 4096 = true) by reflexivity.
  assert (Hmx : g_UseShenandoahMatrix vm_matrix = true) by reflexivity.
  split; [ exact Hloc | split; [ exact Hmx | ] ].
  destruct (matrix_connections_emitted vm_matrix _safe_all 2048 2056 4096
              "phase" "label" "test.cpp" 17) as [_ H].
  exact (H Hloc Hmx eq_refl).
Defined.

(** * Further properties of the assertions *)

(** ** Addresses outside the heap *)

Lemma bind_died {E A} (m : M E A) (k : A -> M E A) :
  dies m = true -> bind m k = m.
Proof.
  unfold dies, returns, result. destruct m as [t [a | e]]; cbn;
    [ discriminate | reflexivity ].
Qed.

Lemma dies_correct_verdict vm il obj file line :
  correct_verdict vm obj <> None ->
  dies (assert_correct vm il obj file line) = true.
Proof.
  intros H. apply dies_verdict. now rewrite assert_correct_verdict.
Qed.

Lemma failure_reads_unknown_no_object_query vm obj il :
  forallb (fun r => negb (object_query r))
          (failure_reads vm _safe_unknown obj il NULL) = true.
Proof.
  unfold_sections. unfold_printers. split_ifs; reflexivity.
Qed.

Lemma assert_in_heap_eq vm il obj file line :
  assert_in_heap vm il obj file line =
  if h_is_in vm obj then ([R_is_in obj], Ret tt)
  else
    (R_is_in obj :: failure_reads vm _safe_unknown obj il NULL,
     Died {| f_level := _safe_unknown; f_obj := obj; f_interior_loc := il;
             f_loc := NULL;
             f_phase := "Shenandoah assert_in_heap failed";
             f_label := "oop must point to a heap address";
             f_error :=
               {| err_file := file; err_line := line;
                  err_message :=
                    failure_message vm _safe_unknown obj il NULL
                      "Shenandoah assert_in_heap failed"
                      "oop must point to a heap address" |} |}).
Proof.
  unfold assert_in_heap, is_in, query.
  destruct (h_is_in vm obj); [ reflexivity | ].
  cbn [negb]. rewrite print_failure_eq. reflexivity.
Qed.

(** X1. [assert_in_heap] dies exactly when the address is outside the
    heap, at [_safe_unknown] with "oop must point to a heap address", and
    whether it returns or reports, it makes no query about an object: no
    type descriptor, size, forwarding word or mark bit is read. *)
Theorem assert_in_heap_no_object_query vm il obj file line :
  verdict (assert_in_heap vm il obj file line) =
    (if h_is_in vm obj then None
     else Some (_safe_unknown, "oop must point to a heap address"%string)) /\
  no_object_query (assert_in_heap vm il obj file line).
Proof.
  rewrite assert_in_heap_eq. unfold no_object_query.
  destruct (h_is_in vm obj); [ split; reflexivity | ].
  split; [ reflexivity | ].
  cbn [reads fst forallb object_query negb andb].
  apply failure_reads_unknown_no_object_query.
Qed.

Lemma assert_correct_outside vm il obj file line :
  h_is_in vm obj = false ->
  assert_correct vm il obj file line =
  (R_is_in obj :: failure_reads vm _safe_unknown obj il NULL,
   Died {| f_level := _safe_unknown; f_obj := obj; f_interior_loc := il;
           f_loc := NULL;
           f_phase := "Shenandoah assert_correct failed";
           f_label := "oop must point to a heap address";
           f_error :=
             {| err_file := file; err_line := line;
                err_message :=
                  failure_message vm _safe_unknown obj il NULL
                    "Shenandoah assert_correct failed"
                    "oop must point to a heap address" |} |}).
Proof.
  intros Hout. unfold assert_correct, is_in, query.
  cbn [bind]. rewrite Hout. cbn [negb].
  rewrite print_failure_eq. reflexivity.
Qed.

Lemma correct_verdict_outside vm obj :
  h_is_in vm obj = false -> correct_verdict vm obj <> None.
Proof. unfold correct_verdict. intros ->. discriminate. Qed.

(** X2. For an address outside the heap, [assert_correct] and every
    assertion built on it report "oop must point to a heap address" at
    [_safe_unknown] and make no query about an object while doing so: the
    forwarding word, the mark bits, the size and the type descriptor of
    such an address are never read. *)
Theorem outside_heap_never_dereferenced vm il obj file line :
  h_is_in vm obj = false ->
  let safe (m : M failure unit) :=
    verdict m = Some (_safe_unknown, "oop must point to a heap address"%string) /\
    no_object_query m in
  safe (assert_correct vm il obj file line) /\
  safe (assert_in_correct_region vm il obj file line) /\
  safe (assert_forwarded vm il obj file line) /\
  safe (assert_not_forwarded vm il obj file line) /\
  safe (assert_marked_complete vm il obj file line) /\
  safe (assert_marked_next vm il obj file line) /\
  safe (assert_not_in_cset vm il obj file line).
Proof.
  intros Hout safe.
  assert (Hc : safe (assert_correct vm il obj file line)).
  { subst safe. cbn beta. rewrite (assert_correct_outside _ _ _ _ _ Hout).
    split; [ reflexivity | ].
    unfold no_object_query. cbn [reads fst forallb object_query negb andb].
    apply failure_reads_unknown_no_object_query. }
  pose proof (dies_correct_verdict vm il obj file line
                (correct_verdict_outside vm obj Hout)) as Hd.
  unfold assert_in_correct_region, assert_forwarded, assert_not_forwarded,
    assert_marked_complete, assert_marked_next, assert_not_in_cset.
  rewrite !(bind_died _ _ Hd).
  repeat split; apply Hc.
Qed.

Lemma outside_heap_never_dereferenced_witness :
  h_is_in vm_full_gc 512 = false /\
  verdict (assert_marked_next vm_full_gc 1032 512 "test.cpp" 21) =
    Some (_safe_unknown, "oop must point to a heap address"%string) /\
  no_object_query (assert_marked_next vm_full_gc 1032 512 "test.cpp" 21).
Proof.
  assert (Hout : h_is_in vm_full_gc 512 = false) by reflexivity.
  split; [ exact Hout | ].
  destruct (outside_heap_never_dereferenced vm_full_gc 1032 512 "test.cpp" 21 Hout)
    as (_ & _ & _ & _ & _ & Hm & _).
  exact Hm.
Defined.

(** X3. When [assert_correct] finds a violation, each assertion built on
    it is that very run of [assert_correct]: the same reads and the same
    report, which carries the phase "Shenandoah assert_correct failed" and
    not the name of the assertion called. *)
Theorem stronger_checks_report_assert_correct vm il obj file line :
  correct_verdict vm obj <> None ->
  assert_in_correct_region vm il obj file line = assert_correct vm il obj file line /\
  assert_forwarded vm il obj file line = assert_correct vm il obj file line /\
  assert_not_forwarded vm il obj file line = assert_correct vm il obj file line /\
  assert_marked_complete vm il obj file line = assert_correct vm il obj file line /\
  assert_marked_next vm il obj file line = assert_correct vm il obj file line /\
  assert_not_in_cset vm il obj file line = assert_correct vm il obj file line /\
  exists f, result (assert_correct vm il obj file line) = Died f /\
            f_phase f = "Shenandoah assert_correct failed"%string.
Proof.
  intros Hv.
  pose proof (dies_correct_verdict vm il obj file line Hv) as Hd.
  unfold assert_in_correct_region, assert_forwarded, assert_not_forwarded,
    assert_marked_complete, assert_marked_next, assert_not_in_cset.
  rewrite !(bind_died _ _ Hd).
  repeat (split; [ reflexivity | ]).
  unfold dies, returns in Hd.
  destruct (result (assert_correct vm il obj file line)) as [[] | f] eqn:Hr;
    [ discriminate Hd | ].
  exists f. split; [ reflexivity | ].
  revert Hr. unfold assert_correct, is_in, get_raw_unchecked,
    is_full_gc_move_in_progress, heap_region_index_containing.
  repeat
    (first [ rewrite result_bind_query | rewrite result_bind_ret
           | rewrite result_bind
           | match goal with
             | |- context [result (print_failure ?v ?l ?o ?i ?lc ?p ?lb ?fl ?ln)] =>
               let msg := fresh "msg" in
               let Hm := fresh "Hm" in
               destruct (print_failure_result (A:=unit) v l o i lc p lb fl ln)
                 as [msg Hm]; rewrite Hm
             | |- context [if ?c then _ else _] => destruct c
             end
           | progress cbn [result ret snd query] ]);
    intros H; try discriminate H; injection H as <-; reflexivity.
Qed.

Lemma stronger_checks_report_assert_correct_witness :
  correct_verdict vm_same_region 2048 <> None /\
  assert_forwarded vm_same_region NULL 2048 "test.cpp" 22 =
  assert_correct vm_same_region NULL 2048 "test.cpp" 22.
Proof.
  assert (Hv : correct_verdict vm_same_region 2048 <> None) by discriminate.
  split; [ exact Hv | ].
  destruct (stronger_checks_report_assert_correct vm_same_region NULL 2048
              "test.cpp" 22 Hv) as (_ & Hf & _).
  exact Hf.
Defined.

(** ** What a passing assertion has read *)

Lemma dies_print_failure {A} vm level obj il loc phase label file line :
  dies (@print_failure vm A level obj il loc phase label file line) = true.
Proof. rewrite print_failure_eq. reflexivity. Qed.

(** A test of one query, followed by a report or a return. *)
Lemma guard_returns {A} (r : read) (v : A) (g : A -> bool) (pf : M failure unit) :
  dies pf = true ->
  returns (bind (query r v) (fun x => if g x then pf else ret tt)) = true ->
  g v = false /\
  bind (query r v) (fun x => if g x then pf else ret tt) = ([r], Ret tt).
Proof.
  unfold dies, returns, result. cbn.
  destruct (g v); [ | intros _ _; split; reflexivity ].
  destruct pf as [t [[] | f]]; cbn; discriminate.
Qed.

Lemma after_assert_correct_returns vm il obj file line (k : unit -> M failure unit) :
  returns (bind (assert_correct vm il obj file line) k) = true ->
  returns (assert_correct vm il obj file line) = true /\
  returns (k tt) = true /\
  reads (bind (assert_correct vm il obj file line) k) =
  reads (assert_correct vm il obj file line) ++ reads (k tt).
Proof.
  unfold returns. rewrite reads_bind, result_bind.
  destruct (result (assert_correct vm il obj file line)) as [[] | f];
    [ | discriminate ].
  intros H. repeat split. exact H.
Qed.

(** X4. [assert_marked_complete] and [assert_marked_next] first run
    [assert_correct], whose report wins; after it has returned, each dies
    at [_safe_all] exactly when its own mark bit is not set, with "Object
    should be marked (complete)" and "Object should be marked (next)".  A
    call that returns has made the reads of [assert_correct] and then one
    read of its own mark bit. *)
Theorem assert_marked_verdicts vm il obj file line :
  verdict (assert_marked_complete vm il obj file line) =
    match correct_verdict vm obj with
    | Some v => Some v
    | None =>
      if h_is_marked_complete vm obj then None
      else Some (_safe_all, "Object should be marked (complete)"%string)
    end /\
  verdict (assert_marked_next vm il obj file line) =
    match correct_verdict vm obj with
    | Some v => Some v
    | None =>
      if h_is_marked_next vm obj then None
      else Some (_safe_all, "Object should be marked (next)"%string)
    end /\
  (returns (assert_marked_complete vm il obj file line) = true ->
   reads (assert_marked_complete vm il obj file line) =
   reads (assert_correct vm il obj file line) ++ [R_is_marked_complete obj]) /\
  (returns (assert_marked_next vm il obj file line) = true ->
   reads (assert_marked_next vm il obj file line) =
   reads (assert_correct vm il obj file line) ++ [R_is_marked_next obj]).
Proof.
  split; [ | split; [ | split ] ].
  - unfold assert_marked_complete, is_marked_complete.
    rewrite verdict_after_assert_correct.
    destruct (correct_verdict vm obj); [ reflexivity | ].
    rewrite verdict_bind_query.
    destruct (h_is_marked_complete vm obj); cbn [negb]; now verdict_step.
  - unfold assert_marked_next, is_marked_next.
    rewrite verdict_after_assert_correct.
    destruct (correct_verdict vm obj); [ reflexivity | ].
    rewrite verdict_bind_query.
    destruct (h_is_marked_next vm obj); cbn [negb]; now verdict_step.
  - unfold assert_marked_complete, is_marked_complete. intros Hret.
    destruct (after_assert_correct_returns _ _ _ _ _ _ Hret) as (_ & Hk & ->).
    apply (guard_returns _ _ negb) in Hk; [ | apply dies_print_failure ].
    destruct Hk as [_ ->]. reflexivity.
  - unfold assert_marked_next, is_marked_next. intros Hret.
    destruct (after_assert_correct_returns _ _ _ _ _ _ Hret) as (_ & Hk & ->).
    apply (guard_returns _ _ negb) in Hk; [ | apply dies_print_failure ].
    destruct Hk as [_ ->]. reflexivity.
Qed.

Lemma assert_marked_verdicts_witness :
  returns (assert_marked_complete vm_quiet NULL 2048 "test.cpp" 23) = true /\
  reads (assert_marked_complete vm_quiet NULL 2048 "test.cpp" 23) =
    [R_is_in 2048; R_get_raw_unchecked 2048; R_is_in 2048;
     R_is_marked_complete 2048] /\
  verdict (assert_marked_next vm_quiet NULL 2048 "test.cpp" 23) =
    Some (_safe_all, "Object should be marked (next)"%string).
Proof.
  assert (Hr : returns (assert_marked_complete vm_quiet NULL 2048 "test.cpp" 23)
               = true) by reflexivity.
  destruct (assert_marked_verdicts vm_quiet NULL 2048 "test.cpp" 23)
    as (_ & Hn & Hc & _).
  split; [ exact Hr | split; [ apply (Hc Hr) | rewrite Hn; reflexivity ] ].
Defined.

Lemma returns_verdict {A} (m : M failure A) :
  returns m = match verdict m with None => true | Some _ => false end.
Proof. unfold returns, verdict. destruct (result m); reflexivity. Qed.

Lemma assert_forwarded_verdict vm il obj file line :
  verdict (assert_forwarded vm il obj file line) =
  match correct_verdict vm obj with
  | Some v => Some v
  | None =>
    if unsafe_equals obj (bp_get_raw_unchecked vm obj)
    then Some (_safe_all, "Object should be forwarded"%string) else None
  end.
Proof.
  unfold assert_forwarded, get_raw_unchecked.
  rewrite verdict_after_assert_correct.
  destruct (correct_verdict vm obj); [ reflexivity | ].
  rewrite verdict_bind_query.
  destruct (unsafe_equals obj (bp_get_raw_unchecked vm obj)); now verdict_step.
Qed.

Lemma assert_not_forwarded_verdict vm il obj file line :
  verdict (assert_not_forwarded vm il obj file line) =
  match correct_verdict vm obj with
  | Some v => Some v
  | None =>
    if unsafe_equals obj (bp_get_raw_unchecked vm obj)
    then None else Some (_safe_all, "Object should not be forwarded"%string)
  end.
Proof.
  unfold assert_not_forwarded, get_raw_unchecked.
  rewrite verdict_after_assert_correct.
  destruct (correct_verdict vm obj); [ reflexivity | ].
  rewrite verdict_bind_query.
  destruct (unsafe_equals obj (bp_get_raw_unchecked vm obj)); cbn [negb];
    now verdict_step.
Qed.

(** X5. On no state and for no object do [assert_forwarded] and
    [assert_not_forwarded] both return; for an object that passes
    [assert_correct] exactly one of them returns.  The one that returns has
    made the reads of [assert_correct] and read the forwarding word of the
    object once more. *)
Theorem forwarded_checks_exclusive vm il obj file line :
  returns (assert_forwarded vm il obj file line)
  && returns (assert_not_forwarded vm il obj file line) = false /\
  (returns (assert_correct vm il obj file line) = true ->
   xorb (returns (assert_forwarded vm il obj file line))
        (returns (assert_not_forwarded vm il obj file line)) = true) /\
  (returns (assert_forwarded vm il obj file line) = true ->
   reads (assert_forwarded vm il obj file line) =
   reads (assert_correct vm il obj file line) ++ [R_get_raw_unchecked obj]) /\
  (returns (assert_not_forwarded vm il obj file line) = true ->
   reads (assert_not_forwarded vm il obj file line) =
   reads (assert_correct vm il obj file line) ++ [R_get_raw_unchecked obj]).
Proof.
  split; [ | split; [ | split ] ].
  - rewrite !returns_verdict, assert_forwarded_verdict, assert_not_forwarded_verdict.
    destruct (correct_verdict vm obj); [ reflexivity | ].
    destruct (unsafe_equals obj (bp_get_raw_unchecked vm obj)); reflexivity.
  - intros Hc. apply correct_verdict_returns in Hc.
    rewrite !returns_verdict, assert_forwarded_verdict,
      assert_not_forwarded_verdict, Hc.
    destruct (unsafe_equals obj (bp_get_raw_unchecked vm obj)); reflexivity.
  - unfold assert_forwarded, get_raw_unchecked. intros Hret.
    destruct (after_assert_correct_returns _ _ _ _ _ _ Hret) as (_ & Hk & ->).
    apply (guard_returns _ _ (fun fwd => unsafe_equals obj fwd)) in Hk;
      [ | apply dies_print_failure ].
    destruct Hk as [_ ->]. reflexivity.
  - unfold assert_not_forwarded, get_raw_unchecked. intros Hret.
    destruct (after_assert_correct_returns _ _ _ _ _ _ Hret) as (_ & Hk & ->).
    apply (guard_returns _ _ (fun fwd => negb (unsafe_equals obj fwd))) in Hk;
      [ | apply dies_print_failure ].
    destruct Hk as [_ ->]. reflexivity.
Qed.

Lemma forwarded_checks_exclusive_witness :
  returns (assert_correct vm_forwarded NULL 2048 "test.cpp" 24) = true /\
  returns (assert_forwarded vm_forwarded NULL 2048 "test.cpp" 24) = true /\
  returns (assert_not_forwarded vm_forwarded NULL 2048 "test.cpp" 24) = false.
Proof.
  assert (Hc : returns (assert_correct vm_forwarded NULL 2048 "test.cpp" 24) = true)
    by reflexivity.
  assert (Hf : returns (assert_forwarded vm_forwarded NULL 2048 "test.cpp" 24) = true)
    by reflexivity.
  split; [ exact Hc | split; [ exact Hf | ] ].
  destruct (forwarded_checks_exclusive vm_forwarded NULL 2048 "test.cpp" 24)
    as (Hex & _).
  rewrite Hf in Hex. exact Hex.
Defined.

(** ** The two forms of the collection-set assertion *)

(** X6. The object form is the stronger of the two: when
    [assert_not_in_cset] returns for an object, [assert_not_in_cset_loc]
    returns for the address of that object after its single read.  The
    converse fails: outside the heap the location form can return where
    the object form reports. *)
Theorem assert_not_in_cset_implies_loc vm il obj file line :
  (returns (assert_not_in_cset vm il obj file line) = true ->
   assert_not_in_cset_loc vm obj file line = ([R_in_collection_set obj], Ret tt)) /\
  (h_is_in vm obj = false -> h_in_collection_set vm obj = false ->
   returns (assert_not_in_cset_loc vm obj file line) = true /\
   returns (assert_not_in_cset vm il obj file line) = false).
Proof.
  split.
  - unfold assert_not_in_cset, in_collection_set. intros Hret.
    destruct (after_assert_correct_returns _ _ _ _ _ _ Hret) as (_ & Hk & _).
    apply (guard_returns _ _ (fun c : bool => c)) in Hk;
      [ | apply dies_print_failure ].
    destruct Hk as [Hc _].
    rewrite assert_not_in_cset_loc_eq, Hc. reflexivity.
  - intros Hout Hc. split.
    + rewrite assert_not_in_cset_loc_eq, Hc. reflexivity.
    + rewrite returns_verdict. unfold assert_not_in_cset.
      rewrite verdict_after_assert_correct.
      unfold correct_verdict. rewrite Hout. reflexivity.
Qed.

Lemma assert_not_in_cset_implies_loc_witness :
  returns (assert_not_in_cset vm_quiet NULL 2048 "test.cpp" 25) = true /\
  assert_not_in_cset_loc vm_quiet 2048 "test.cpp" 25 =
    ([R_in_collection_set 2048], Ret tt) /\
  h_is_in vm_quiet 512 = false /\
  returns (assert_not_in_cset_loc vm_quiet 512 "test.cpp" 25) = true /\
  returns (assert_not_in_cset vm_quiet NULL 512 "test.cpp" 25) = false.
Proof.
  assert (Hr : returns (assert_not_in_cset vm_quiet NULL 2048 "test.cpp" 25) = true)
    by reflexivity.
  assert (Hout : h_is_in vm_quiet 512 = false) by reflexivity.
  destruct (assert_not_in_cset_implies_loc vm_quiet NULL 2048 "test.cpp" 25)
    as [Hobj _].
  destruct (assert_not_in_cset_implies_loc vm_quiet NULL 512 "test.cpp" 25)
    as [_ Hloc].
  split; [ exact Hr | split; [ exact (Hobj Hr) | split; [ exact Hout | ] ] ].
  apply (Hloc Hout). reflexivity.
Defined.

(** ** The printers *)

(** X7. The three printers only append: whatever buffer they are given
    comes back unchanged, followed by lines that do not depend on it, and
    the reads do not depend on it either.  [print_obj] appends the seven
    lines of an object's details, [print_obj_safe] the address and at most
    the summary of a region, [print_non_obj] three lines for an address in
    the heap and two for one outside. *)
Theorem printers_only_append vm p msg :
  @print_obj failure vm msg p =
    (reads (@print_obj failure vm [] p), Ret (msg ++ full_detail vm p)) /\
  @print_obj_safe failure vm msg p =
    (reads (@print_obj_safe failure vm [] p), Ret (msg ++ minimal_detail vm p)) /\
  @print_non_obj failure vm msg p =
    (reads (@print_non_obj failure vm [] p),
     Ret (msg ++
          if h_is_in vm p
          then [ literal ("  inside Java heap" ++ nl);
                 Append ("    %3s in collection set" ++ nl)
                        [not_unless (h_in_collection_set vm p)];
                 Append "  region: %s"
                        [A_str (r_print_on vm (h_heap_region_containing vm p))] ]
          else [ literal ("  outside of Java heap" ++ nl);
                 Append "  %s" [A_str (os_print_location vm p)] ])).
Proof.
  split; [ | split ].
  - rewrite (print_obj_appends (E:=failure) vm msg p). reflexivity.
  - rewrite (print_obj_safe_appends (E:=failure) vm msg p).
    unfold minimal_detail, printed, print_obj_safe, is_in,
      heap_region_containing, print_on, query, append. cbn.
    destruct (h_is_in vm p); cbn; [ | reflexivity ].
    destruct (h_heap_region_containing vm p =? NULL); reflexivity.
  - rewrite (print_non_obj_appends (E:=failure) vm msg p).
    unfold printed, print_non_obj, is_in, query. cbn.
    destruct (h_is_in vm p); reflexivity.
Qed.

Ltac in_atom := first [ congruence | split; congruence ].

Ltac in_find :=
  cbn;
  repeat match goal with
         | |- _ \/ _ => first [ left; solve [ in_atom ] | right ]
         end;
  try solve [ in_atom ].

(** X8. The printers that take a raw address look up its region only
    when the address is in the heap.  [print_obj_safe] prints the region
    only when the lookup gave one; [print_non_obj] asks the operating
    system to describe the address exactly when it is outside the heap, and
    never reads a type descriptor. *)
Theorem raw_printers_region_lookup vm msg loc :
  (forall p, In (R_heap_region_containing p)
                (reads (@print_obj_safe failure vm msg loc)) <->
             p = loc /\ h_is_in vm loc = true) /\
  (forall r, In (R_print_on r) (reads (@print_obj_safe failure vm msg loc)) <->
             r = h_heap_region_containing vm loc /\ r <> NULL /\
             h_is_in vm loc = true) /\
  (forall p, In (R_heap_region_containing p)
                (reads (@print_non_obj failure vm msg loc)) <->
             p = loc /\ h_is_in vm loc = true) /\
  (forall p, In (R_print_location p)
                (reads (@print_non_obj failure vm msg loc)) <->
             p = loc /\ h_is_in vm loc = false) /\
  no_object_query (@print_obj_safe failure vm msg loc) /\
  no_object_query (@print_non_obj failure vm msg loc).
Proof.
  unfold no_object_query, reads, print_obj_safe, print_non_obj, is_in,
    heap_region_containing, print_on, print_location, in_collection_set, query.
  cbn.
  destruct (h_is_in vm loc); cbn;
    destruct (Z.eqb_spec (h_heap_region_containing vm loc) NULL) as [e | ne]; cbn;
    repeat split; intros;
    repeat match goal with
           | H : _ /\ _ |- _ => destruct H
           | H : _ \/ _ |- _ => destruct H
           | H : False |- _ => destruct H
           | H : @eq read _ _ |- _ => first [ discriminate H | injection H as H ]
           | H : @eq bool _ _ |- _ => discriminate H
           end;
    subst; try congruence; in_find.
Qed.

(** ** What a report reads, level by level *)

Ltac reads_by_level :=
  repeat match goal with
         | H : _ /\ _ |- _ => destruct H
         | H : _ \/ _ |- _ => destruct H
         | H : False |- _ => destruct H
         | H : @eq read _ _ |- _ => first [ discriminate H | injection H as H ]
         | H : @eq bool _ _ |- _ => discriminate H
         end;
  subst; try congruence; in_find.

(** X9. Without a referring location, a report reads the type descriptor
    and the mark bits of two addresses at most: of the object, exactly
    when the level is at least [_safe_oop], and of its forwardee, exactly
    when the level is at least [_safe_oop_fwd].  Nothing behind the
    interior location and nothing behind the second forwardee is read. *)
Theorem report_object_reads_by_level vm level obj il phase label file line p :
  let t := reads (@print_failure vm unit level obj il NULL phase label file line) in
  let touched :=
    (level_ge level _safe_oop = true /\ p = obj) \/
    (level_ge level _safe_oop_fwd = true /\ p = bp_get_raw_unchecked vm obj) in
  (In (R_klass p) t <-> touched) /\
  (In (R_is_marked_complete p) t <-> touched) /\
  (In (R_is_marked_next p) t <-> touched).
Proof.
  intros t touched. subst t touched. rewrite reads_print_failure.
  unfold_sections. unfold_printers.
  destruct level; cbn;
    destruct (Z.eqb_spec obj (bp_get_raw_unchecked vm obj)) as [e | ne];
    try rewrite <- e in *;
    split_ifs; repeat split; intros; reads_by_level.
Qed.

(** X10. Without a referring location, a report reads the forwarding
    word of the object exactly when the level is at least [_safe_oop], and
    that of the forwardee exactly when the level is at least
    [_safe_oop_fwd]; no other forwarding word is read, so the chain is
    never followed past the second forwardee. *)
Theorem report_forwarding_reads_by_level vm level obj il phase label file line p :
  In (R_get_raw_unchecked p)
     (reads (@print_failure vm unit level obj il NULL phase label file line)) <->
  (level_ge level _safe_oop = true /\ p = obj) \/
  (level_ge level _safe_oop_fwd = true /\ p = bp_get_raw_unchecked vm obj).
Proof.
  rewrite reads_print_failure.
  unfold_sections. unfold_printers.
  destruct level; cbn;
    destruct (Z.eqb_spec obj (bp_get_raw_unchecked vm obj)) as [e | ne];
    try rewrite <- e in *;
    split_ifs; repeat split; intros; reads_by_level.
Qed.

(** ** The regions [assert_in_correct_region] looks at *)

Lemma reads_in_bind {E A B} (m : M E A) (k : A -> M E B) r :
  In r (reads (bind m k)) ->
  In r (reads m) \/ exists a, result m = Ret a /\ In r (reads (k a)).
Proof.
  rewrite reads_bind. destruct (result m) as [a | e]; [ | now left ].
  intros H. apply in_app_or in H. destruct H as [H | H]; [ now left | ].
  right. now exists a.
Qed.

Lemma failure_reads_no_region_table vm level obj il :
  forallb (fun r => negb (region_table_query r))
          (failure_reads vm level obj il NULL) = true.
Proof.
  unfold_sections. unfold_printers.
  destruct level; split_ifs; reflexivity.
Qed.

Lemma print_failure_no_region_table {A} vm level obj il phase label file line r :
  In r (reads (@print_failure vm A level obj il NULL phase label file line)) ->
  region_table_query r = false.
Proof.
  rewrite reads_print_failure. intros H.
  pose proof (failure_reads_no_region_table vm level obj il) as Hall.
  rewrite forallb_forall in Hall. specialize (Hall r H).
  now destruct (region_table_query r).
Qed.

Lemma span_read_other vm first last i r :
  region_table_query r = false -> span_read vm first last i r.
Proof. destruct r; cbn; intros H; try discriminate H; exact I. Qed.

Lemma span_read_weaken vm first last i r :
  span_read vm first last (i + 1) r -> span_read vm first last i r.
Proof.
  destruct r; cbn; try tauto; try lia.
  intros (j & Hj & Hf & Hr). exists j. repeat split; try assumption; lia.
Qed.

Lemma assert_correct_no_region_table vm il obj file line r :
  In r (reads (assert_correct vm il obj file line)) ->
  region_table_query r = false.
Proof.
  unfold assert_correct, is_in, get_raw_unchecked, is_full_gc_move_in_progress,
    heap_region_index_containing.
  intros H.
  repeat match type of H with
         | In _ (reads (bind _ _)) =>
           apply reads_in_bind in H;
           let a := fresh "a" in
           let Ha := fresh "Ha" in
           destruct H as [H | (a & Ha & H)]
         | In _ (reads (if ?c then _ else _)) => destruct c
         | In _ (reads (print_failure _ _ _ _ _ _ _ _ _)) =>
           apply print_failure_no_region_table in H
         | In _ (reads (query _ _)) => destruct H as [<- | []]
         | In _ (reads (ret _)) => destruct H
         end;
    first [ assumption | reflexivity ].
Qed.

Lemma humongous_chain_reads vm il obj file line idx n :
  forall fuel i r,
    0 <= i -> idx <= i ->
    In r (reads (humongous_chain vm fuel il obj file line idx n i)) ->
    span_read vm idx (size_t_wrap (idx + n)) i r.
Proof.
  induction fuel as [ | fuel IH]; intros i r Hi0 Hi H.
  - destruct H.
  - cbn [humongous_chain] in H.
    destruct (Z.ltb_spec i (size_t_wrap (idx + n))) as [Hlt | Hge];
      [ | destruct H ].
    assert (Hnext : size_t_wrap (i + 1) = i + 1).
    { apply size_t_wrap_small.
      pose proof (size_t_wrap_range (idx + n)). lia. }
    rewrite Hnext in H.
    unfold regions_get, is_humongous_start, is_humongous_continuation in H.
    apply reads_in_bind in H. destruct H as [H | (reg & Hreg & H)].
    { destruct H as [<- | []]. cbn. lia. }
    injection Hreg as <-.
    apply reads_in_bind in H. destruct H as [H | ([] & _ & H)].
    { destruct (Z.eqb_spec i idx) as [-> | ne]; [ | destruct H ].
      apply reads_in_bind in H. destruct H as [H | (s & _ & H)].
      - destruct H as [<- | []]. cbn. split; [ lia | reflexivity ].
      - destruct (negb s); [ | destruct H ].
        apply span_read_other. now apply print_failure_no_region_table in H. }
    apply reads_in_bind in H. destruct H as [H | ([] & _ & H)].
    { destruct (Z.eqb_spec i idx) as [-> | ne]; cbn [negb] in H; [ destruct H | ].
      apply reads_in_bind in H. destruct H as [H | (c & _ & H)].
      - destruct H as [<- | []]. cbn. exists i.
        repeat split; try lia.
      - destruct (negb c); [ | destruct H ].
        apply span_read_other. now apply print_failure_no_region_table in H. }
    apply span_read_weaken. apply (IH (i + 1)); [ lia | lia | exact H ].
Qed.

(** X11. [assert_in_correct_region] never looks at a region outside the
    span of the object: entries of the region table are taken from the
    positions of the span only, the humongous-start flag is asked of the
    first region of the span only, and the continuation flag only of the
    regions after it.  For an object at or below the humongous threshold
    none of these is read at all. *)
Theorem assert_in_correct_region_reads_in_span vm il obj file line r :
  0 <= span_first vm obj ->
  In r (reads (assert_in_correct_region vm il obj file line)) ->
  (region_table_query r = true -> is_humongous vm obj = true) /\
  span_read vm (span_first vm obj) (span_end vm obj) (span_first vm obj) r.
Proof.
  intros H0 H.
  unfold assert_in_correct_region, heap_region_containing, is_active, size,
    region_number in H.
  apply reads_in_bind in H. destruct H as [H | ([] & _ & H)].
  { apply assert_correct_no_region_table in H.
    split; [ congruence | now apply span_read_other ]. }
  apply reads_in_bind in H. destruct H as [H | (reg & Hreg & H)].
  { destruct H as [<- | []]. split; [ discriminate | exact I ]. }
  injection Hreg as <-.
  apply reads_in_bind in H. destruct H as [H | (act & _ & H)].
  { destruct H as [<- | []]. split; [ discriminate | exact I ]. }
  apply reads_in_bind in H. destruct H as [H | ([] & _ & H)].
  { destruct (negb act); [ | destruct H ].
    apply print_failure_no_region_table in H.
    split; [ congruence | now apply span_read_other ]. }
  apply reads_in_bind in H. destruct H as [H | (sz & Hsz & H)].
  { destruct H as [<- | []]. split; [ discriminate | exact I ]. }
  injection Hsz as <-.
  fold (alloc_size vm obj) in H. fold (is_humongous vm obj) in H.
  destruct (is_humongous vm obj); [ | destruct H ].
  split; [ reflexivity | ].
  apply reads_in_bind in H. destruct H as [H | (idx & Hidx & H)].
  { destruct H as [<- | []]. exact I. }
  injection Hidx as <-.
  fold (span_first vm obj) in H. fold (span_regions vm obj) in H.
  unfold span_end.
  apply (humongous_chain_reads _ _ _ _ _ _ _ _ _ _ H0 (Z.le_refl _) H).
Qed.

Lemma assert_in_correct_region_reads_in_span_witness :
  0 <= span_first vm_humongous_ok 2048 /\
  In (R_regions_get 4)
     (reads (assert_in_correct_region vm_humongous_ok NULL 2048 "test.cpp" 26)) /\
  span_first vm_humongous_ok 2048 <= 4 < span_end vm_humongous_ok 2048.
Proof.
  assert (H0 : 0 <= span_first vm_humongous_ok 2048) by (vm_compute; discriminate).
  assert (Hin : In (R_regions_get 4)
                   (reads (assert_in_correct_region vm_humongous_ok NULL 2048
                             "test.cpp" 26))) by (vm_compute; auto 20).
  split; [ exact H0 | split; [ exact Hin | ] ].
  exact (proj2 (assert_in_correct_region_reads_in_span vm_humongous_ok NULL 2048
                  "test.cpp" 26 (R_regions_get 4) H0 Hin)).
Defined.

(** ** The two reference processor assertions together *)

(** X12. [assert_rp_isalive_not_installed] and
    [assert_rp_isalive_installed] both return on the same state exactly
    when the closure of the reference processor and the closure of the heap
    are both [NULL]: with a closure of the heap that is not [NULL], one of
    the two assertions dies, whatever is installed. *)
Theorem rp_assertions_together vm file line :
  (returns (assert_rp_isalive_not_installed vm file line) = true /\
   returns (assert_rp_isalive_installed vm file line) = true <->
   rp_is_alive_non_header vm = NULL /\ h_is_alive_closure vm = NULL) /\
  (h_is_alive_closure vm <> NULL ->
   dies (assert_rp_isalive_not_installed vm file line) = true \/
   dies (assert_rp_isalive_installed vm file line) = true).
Proof.
  rewrite assert_rp_isalive_not_installed_eq, assert_rp_isalive_installed_eq.
  unfold dies, returns.
  destruct (Z.eqb_spec (rp_is_alive_non_header vm) NULL) as [e1 | n1];
    destruct (Z.eqb_spec (rp_is_alive_non_header vm) (h_is_alive_closure vm))
      as [e2 | n2];
    cbn [result snd negb]; split;
    try (split; [ intros [H1 H2]; first [ discriminate | split; congruence ]
                | intros [H1 H2]; first [ congruence | split; reflexivity ] ]);
    intros Hc; first [ now left | now right | congruence ].
Qed.

Lemma rp_assertions_together_witness :
  h_is_alive_closure vm_rp_installed <> NULL /\
  dies (assert_rp_isalive_not_installed vm_rp_installed "test.cpp" 27) = true.
Proof.
  assert (Hc : h_is_alive_closure vm_rp_installed <> NULL) by discriminate.
  split; [ exact Hc | ].
  destruct (rp_assertions_together vm_rp_installed "test.cpp" 27) as [_ H].
  destruct (H Hc) as [Hd | Hd]; [ exact Hd | discriminate Hd ].
Defined.

(** ** [assert_correct] and [assert_in_heap] *)

(** X13. [assert_correct] includes [assert_in_heap]: where it returns,
    [assert_in_heap] returns after its single read; where [assert_in_heap]
    dies, [assert_correct] dies after the same reads with the same report,
    but for the phase in its header. *)
Theorem assert_correct_includes_in_heap vm il obj file line :
  (returns (assert_correct vm il obj file line) = true ->
   assert_in_heap vm il obj file line = ([R_is_in obj], Ret tt)) /\
  (dies (assert_in_heap vm il obj file line) = true ->
   reads (assert_correct vm il obj file line) =
     reads (assert_in_heap vm il obj file line) /\
   verdict (assert_correct vm il obj file line) =
     verdict (assert_in_heap vm il obj file line) /\
   tl (message (assert_correct vm il obj file line)) =
     tl (message (assert_in_heap vm il obj file line)) /\
   hd_error (message (assert_correct vm il obj file line)) =
     Some (failure_header "Shenandoah assert_correct failed"
                          "oop must point to a heap address") /\
   hd_error (message (assert_in_heap vm il obj file line)) =
     Some (failure_header "Shenandoah assert_in_heap failed"
                          "oop must point to a heap address")).
Proof.
  split.
  - intros Hr. apply correct_verdict_returns in Hr.
    rewrite assert_in_heap_eq.
    unfold correct_verdict in Hr.
    destruct (h_is_in vm obj); [ reflexivity | discriminate Hr ].
  - rewrite assert_in_heap_eq.
    destruct (h_is_in vm obj) eqn:Hin; [ discriminate | intros _ ].
    rewrite (assert_correct_outside vm il obj file line Hin).
    repeat split.
Qed.

Lemma assert_correct_includes_in_heap_witness :
  returns (assert_correct vm_quiet NULL 2048 "test.cpp" 28) = true /\
  assert_in_heap vm_quiet NULL 2048 "test.cpp" 28 = ([R_is_in 2048], Ret tt) /\
  dies (assert_in_heap vm_quiet NULL 512 "test.cpp" 28) = true /\
  reads (assert_correct vm_quiet NULL 512 "test.cpp" 28) =
    reads (assert_in_heap vm_quiet NULL 512 "test.cpp" 28).
Proof.
  assert (Hr : returns (assert_correct vm_quiet NULL 2048 "test.cpp" 28) = true)
    by reflexivity.
  assert (Hd : dies (assert_in_heap vm_quiet NULL 512 "test.cpp" 28) = true)
    by reflexivity.
  destruct (assert_correct_includes_in_heap vm_quiet NULL 2048 "test.cpp" 28)
    as [Hin _].
  destruct (assert_correct_includes_in_heap vm_quiet NULL 512 "test.cpp" 28)
    as [_ Hout].
  split; [ exact Hr | split; [ exact (Hin Hr) | split; [ exact Hd | ] ] ].
  exact (proj1 (Hout Hd)).
Defined.

(** ** The reports of the assertions have no referring location *)

Lemma reports_for_ret {A} vm il file line (a : A) :
  reports_for vm il file line (ret a).
Proof. intros f H. discriminate H. Qed.

Lemma reports_for_query {A} vm il file line r (v : A) :
  reports_for vm il file line (query r v).
Proof. intros f H. discriminate H. Qed.

Lemma reports_for_bind {A B} vm il file line (m : M failure A) (k : A -> M failure B) :
  reports_for vm il file line m ->
  (forall a, reports_for vm il file line (k a)) ->
  reports_for vm il file line (bind m k).
Proof.
  intros Hm Hk f. rewrite result_bind.
  destruct (result m) as [a | e] eqn:Hr.
  - apply Hk.
  - intros H. injection H as <-. now apply Hm.
Qed.

Lemma reports_for_if {A} vm il file line (c : bool) (m1 m2 : M failure A) :
  reports_for vm il file line m1 -> reports_for vm il file line m2 ->
  reports_for vm il file line (if c then m1 else m2).
Proof. now destruct c. Qed.

Lemma reports_for_print_failure {A} vm il file line level obj phase label :
  reports_for vm il file line
              (@print_failure vm A level obj il NULL phase label file line).
Proof.
  intros f. rewrite print_failure_eq. intros H. injection H as <-.
  repeat split.
Qed.

Ltac reports_tac :=
  repeat first
    [ apply reports_for_ret | apply reports_for_query
    | apply reports_for_print_failure
    | apply reports_for_bind; [ | intro ]
    | apply reports_for_if ].

Lemma assert_correct_reports_for vm il obj file line :
  reports_for vm il file line (assert_correct vm il obj file line).
Proof.
  unfold assert_correct, is_in, get_raw_unchecked, is_full_gc_move_in_progress,
    heap_region_index_containing.
  reports_tac.
Qed.

Lemma humongous_chain_reports_for vm il obj file line idx n :
  forall fuel i,
    reports_for vm il file line (humongous_chain vm fuel il obj file line idx n i).
Proof.
  induction fuel as [ | fuel IH]; intros i; cbn [humongous_chain].
  - apply reports_for_ret.
  - unfold regions_get, is_humongous_start, is_humongous_continuation.
    apply reports_for_if; [ | apply reports_for_ret ].
    apply reports_for_bind; [ apply reports_for_query | intro reg ].
    apply reports_for_bind; [ reports_tac | intro ].
    apply reports_for_bind; [ reports_tac | intro ].
    apply IH.
Qed.

Lemma no_matrix_without_loc vm level obj il phase label :
  ~ In (literal ("Matrix connections:" ++ nl))
       (failure_message vm level obj il NULL phase label).
Proof.
  unfold failure_message.
  pose proof (matrix_header_elsewhere vm level obj il NULL phase label) as Hno.
  assert (Hm : printed (matrix_connections_section vm level obj il NULL) = [])
    by (rewrite matrix_connections_section_eq; reflexivity).
  rewrite Hm, app_nil_r. exact Hno.
Qed.

(** X14. Whatever assertion of the file reports, the report is one of
    [print_failure] for the interior location, the file and the line of
    the call and with no referring location; so it has no "Matrix
    connections" section, whether or not the connection matrix is in use,
    and its "Referenced from" section never holds the details of an
    object. *)
Theorem assertions_report_without_loc vm il obj file line f :
  result (assert_in_heap vm il obj file line) = Died f \/
  result (assert_correct vm il obj file line) = Died f \/
  result (assert_in_correct_region vm il obj file line) = Died f \/
  result (assert_forwarded vm il obj file line) = Died f \/
  result (assert_not_forwarded vm il obj file line) = Died f \/
  result (assert_marked_complete vm il obj file line) = Died f \/
  result (assert_marked_next vm il obj file line) = Died f \/
  result (assert_not_in_cset vm il obj file line) = Died f \/
  result (assert_not_in_cset_loc vm il file line) = Died f ->
  f_loc f = NULL /\ f_interior_loc f = il /\
  err_file (f_error f) = file /\ err_line (f_error f) = line /\
  ~ In (literal ("Matrix connections:" ++ nl)) (err_message (f_error f)) /\
  forall p, ~ In (R_klass p) (reads (referenced_from_section vm il (f_loc f))).
Proof.
  intros H.
  assert (Hrep : f_loc f = NULL /\ f_interior_loc f = il /\
                 err_file (f_error f) = file /\ err_line (f_error f) = line /\
                 err_message (f_error f) =
                   failure_message vm (f_level f) (f_obj f) il NULL
                                   (f_phase f) (f_label f)).
  { pose proof (assert_correct_reports_for vm il obj file line) as Hc.
    destruct H as [H | [H | [H | [H | [H | [H | [H | [H | H]]]]]]]];
      revert f H;
      [ unfold assert_in_heap, is_in
      | exact Hc
      | unfold assert_in_correct_region, heap_region_containing, is_active,
          size, region_number
      | unfold assert_forwarded, get_raw_unchecked
      | unfold assert_not_forwarded, get_raw_unchecked
      | unfold assert_marked_complete, is_marked_complete
      | unfold assert_marked_next, is_marked_next
      | unfold assert_not_in_cset, in_collection_set
      | unfold assert_not_in_cset_loc, in_collection_set ];
      repeat first
        [ exact Hc | apply humongous_chain_reports_for
        | apply reports_for_ret | apply reports_for_query
        | apply reports_for_print_failure
        | apply reports_for_bind; [ | intro ]
        | apply reports_for_if ]. }
  destruct Hrep as (Hloc & Hil & Hfile & Hline & Hmsg).
  repeat (split; [ assumption | ]).
  split.
  - rewrite Hmsg. apply no_matrix_without_loc.
  - rewrite Hloc. intros p.
    unfold referenced_from_section, pf_referenced_from, in_heap, print_non_obj,
      is_in, heap_region_containing, print_on, in_collection_set,
      print_location, query, reads.
    split_ifs; intros Hin;
      repeat (destruct Hin as [Hin | Hin]; [ discriminate Hin | ]);
      exact Hin.
Qed.

Lemma assertions_report_without_loc_witness :
  exists f,
    result (assert_forwarded vm_matrix 1032 4096 "test.cpp" 29) = Died f /\
    g_UseShenandoahMatrix vm_matrix = true /\
    f_level f = _safe_all /\
    ~ In (literal ("Matrix connections:" ++ nl)) (err_message (f_error f)).
Proof.
  destruct (result (assert_forwarded vm_matrix 1032 4096 "test.cpp" 29))
    as [[] | f] eqn:Hr; [ discriminate Hr | ].
  exists f. split; [ reflexivity | split; [ reflexivity | ] ].
  split.
  - revert Hr. vm_compute. intros H. injection H as <-. reflexivity.
  - apply (assertions_report_without_loc vm_matrix 1032 4096 "test.cpp" 29 f).
    right. right. right. left. exact Hr.
Defined.
